(** * ngo.js: the query layer of the NGO chaincode, embedded in Rocq

    The chaincode (src/ngo-chaincode/src/ngo.js) answers queries over a
    Hyperledger Fabric ledger through the [stub] object of fabric-shim:
    point lookups ([queryByKey]), range scans filtered by a selector
    ([queryByString]), history replay ([queryHistoryForKey]) and two record
    creation handlers ([createEntity], [createEntry]).

    The embedding is shallow.  JavaScript values are an inductive type,
    exceptions are an error result, the [stub] is an interface (a type class)
    with the ledger as an instance, and an iterator is the list of responses
    its [next()] will give together with a counter of [close()] calls. *)

From Stdlib Require Import String Ascii List ZArith Bool Lia Sorted.
From Stdlib Require Import DecimalString OrderedTypeEx.
From Stdlib Require Import NArith Permutation.
Import ListNotations.
Local Open Scope list_scope.
Local Open Scope string_scope.

(* ================================================================== *)
(** ** JavaScript values *)
(* ================================================================== *)

(** The values the chaincode handles: what [JSON.parse] returns, plus
    [undefined] (the result of reading a missing property), [NaN] and the
    infinities (sums of operands that are no strings) and the built-in
    members a value inherits from its prototype, such as [toString]
    ([JNative], by name).  Numbers are the integers a double holds; a string
    is held as its UTF-8 bytes; an object is the list of its own properties
    in enumeration order, none of them a function, as in a parsed JSON
    text. *)
#[local] Set Warnings "-register-all".
Inductive jsval : Type :=
| JUndefined
| JNull
| JNaN
| JInfinity (negative : bool)
| JBool (b : bool)
| JNum (n : Z)
| JStr (s : string)
| JArr (xs : list jsval)
| JObj (fields : list (string * jsval))
| JNative (name : string).

#[local] Set Warnings "register-all".

(** Exceptions.  [Error] carries the message of a [throw new Error(...)] of
    the chaincode; [StubFailure] is a rejected promise of the stub. *)
Inductive exn : Type :=
| SyntaxError
| TypeError
| Error (message : string)
| StubFailure (reason : string).

Inductive result (A : Type) : Type :=
| Ok (a : A)
| Throw (e : exn).
Arguments Ok {A} a.
Arguments Throw {A} e.

Definition bind {A B : Type} (r : result A) (k : A -> result B) : result B :=
  match r with
  | Ok a => k a
  | Throw e => Throw e
  end.

Notation "x <- c ;; k" := (bind c (fun x => k))
  (at level 61, c at next level, right associativity).

(** ToBoolean. *)
Definition truthy (v : jsval) : bool :=
  match v with
  | JUndefined | JNull | JNaN => false
  | JBool b => b
  | JNum n => negb (n =? 0)%Z
  | JStr s => negb (s =? "")
  | JInfinity _ | JArr _ | JObj _ | JNative _ => true
  end.

Fixpoint assoc {A : Type} (k : string) (l : list (string * A)) : option A :=
  match l with
  | [] => None
  | (k', v) :: l' => if k' =? k then Some v else assoc k l'
  end.

(** *** Numbers *)

Definition decimal (n : Z) : string := NilZero.string_of_int (Z.to_int n).

(** The double nearest to an integer, ties to the even mantissa, and the
    infinity past the largest double.  Every integer up to [2 ^ 53] in
    magnitude is a double. *)
Definition nearest_double (z : Z) : jsval :=
  (let x := Z.abs z in
   if x <=? 2 ^ 53 then JNum z
   else
     let u := 2 ^ (Z.log2 x - 52) in
     let q := x / u in
     let r := x mod u in
     let q' := if (u <? 2 * r) || ((u =? 2 * r) && Z.odd q) then q + 1 else q in
     if 2 ^ 1024 <=? q' * u then JInfinity (z <? 0) else JNum (Z.sgn z * (q' * u)))%Z.

(** [rounds_to x v]: the integer [v] lies in the interval of the reals whose
    nearest double is [x], for a double [x] above [2 ^ 53]. *)
Definition rounds_to (x v : Z) : bool :=
  (let u := 2 ^ (Z.log2 x - 52) in
   let below := if x =? 2 ^ Z.log2 x then u / 4 else u / 2 in
   let above := u / 2 in
   if Z.even (x / u)
   then (x - below <=? v) && (v <=? x + above)
   else (x - below <? v) && (v <? x + above))%Z.

(** The decimal with the fewest significant digits that still reads back
    as [x], and among those the nearest to [x]: [scale] is the weight of the
    last digit tried, from the first digit of [x] down to the units. *)
Fixpoint shortest (x scale : Z) (fuel : nat) : Z :=
  match fuel with
  | O => x
  | S fuel' =>
      (let lo := x / scale * scale in
       let hi := lo + scale in
       match rounds_to x lo, rounds_to x hi with
       | true, true =>
           if x - lo <? hi - x then lo
           else if hi - x <? x - lo then hi
           else if Z.even (x / scale) then lo else hi
       | true, false => lo
       | false, true => hi
       | false, false => shortest x (scale / 10) fuel'
       end)%Z
  end.

(** A numeral without its final zeros. *)
Fixpoint trim (s : string) : string :=
  match s with
  | EmptyString => EmptyString
  | String c s' =>
      match trim s' with
      | EmptyString => if Ascii.eqb c "0" then EmptyString else String c EmptyString
      | t => String c t
      end
  end.

Definition exponent_form (v : Z) : string :=
  let d := decimal v in
  match trim d with
  | EmptyString => "0"
  | String c EmptyString => String c EmptyString
  | String c r => String c ("." ++ r)
  end ++ "e+" ++ decimal (Z.of_nat (String.length d) - 1).

(** Number::toString of an integer: its digits up to [2 ^ 53]; above, the
    shortest digits that read back as the same double, followed by zeros
    below [10 ^ 21] and in exponent form from there on ([1e+21]). *)
Definition Number_toString (n : Z) : string :=
  (let x := Z.abs n in
   let digits := String.length (decimal x) in
   let v := if x <=? 2 ^ 53 then x
            else shortest x (10 ^ (Z.of_nat digits - 1)) digits in
   (if n <? 0 then "-" else "") ++
   (if v <? 10 ^ 21 then decimal v else exponent_form v))%Z%string.

(** *** Conversion to text and the [+] operator *)

(** The text [+] and the template of a log line make of a value.  A
    primitive has its text.  An array is the texts of its elements joined by
    commas, [null] and [undefined] giving none.  An object answers through
    [toString]: the one of [Object.prototype] unless the object has an own
    property of that name, which is no function and makes the conversion
    throw a [TypeError]. *)
Fixpoint js_to_string (v : jsval) : result string :=
  match v with
  | JUndefined => Ok "undefined"
  | JNull => Ok "null"
  | JNaN => Ok "NaN"
  | JInfinity negative => Ok (if negative then "-Infinity" else "Infinity")
  | JBool true => Ok "true"
  | JBool false => Ok "false"
  | JNum n => Ok (Number_toString n)
  | JStr s => Ok s
  | JArr xs =>
      texts <- (fix join (xs : list jsval) : result (list string) :=
                  match xs with
                  | [] => Ok []
                  | x :: xs' =>
                      text <- match x with
                              | JUndefined | JNull => Ok ""
                              | _ => js_to_string x
                              end ;;
                      texts <- join xs' ;;
                      Ok (text :: texts)
                  end) xs ;;
      Ok (String.concat "," texts)
  | JObj fields =>
      match assoc "toString" fields with
      | Some _ => Throw TypeError
      | None => Ok "[object Object]"
      end
  | JNative name => Ok ("function " ++ name ++ "() { [native code] }")
  end.

(** The text of an array element inside [join], and the texts of all
    elements: the array case of [js_to_string], written apart. *)
Definition element_text (x : jsval) : result string :=
  match x with
  | JUndefined | JNull => Ok ""
  | _ => js_to_string x
  end.

Fixpoint join_texts (xs : list jsval) : result (list string) :=
  match xs with
  | [] => Ok []
  | x :: xs' =>
      text <- element_text x ;;
      texts <- join_texts xs' ;;
      Ok (text :: texts)
  end.

(** Induction on a value, with the property at hand for the elements of
    an array and for the values of the fields of an object. *)
Section Induction.
Variable P : jsval -> Prop.
Hypothesis atom :
  forall v, match v with JArr _ | JObj _ => True | _ => P v end.
Hypothesis array : forall xs, Forall P xs -> P (JArr xs).
Hypothesis object : forall fields, Forall (fun f => P (snd f)) fields -> P (JObj fields).

Fixpoint jsval_induction (v : jsval) : P v :=
  match v with
  | JArr xs =>
      array xs
        ((fix elements (xs : list jsval) : Forall P xs :=
            match xs with
            | [] => Forall_nil P
            | x :: xs' => Forall_cons x (jsval_induction x) (elements xs')
            end) xs)
  | JObj fields =>
      object fields
        ((fix members (fs : list (string * jsval)) : Forall (fun f => P (snd f)) fs :=
            match fs with
            | [] => Forall_nil _
            | f :: fs' =>
                @Forall_cons _ (fun f => P (snd f)) f fs' (jsval_induction (snd f))
                  (members fs')
            end) fields)
  | JUndefined => atom JUndefined
  | JNull => atom JNull
  | JNaN => atom JNaN
  | JInfinity negative => atom (JInfinity negative)
  | JBool b => atom (JBool b)
  | JNum n => atom (JNum n)
  | JStr s => atom (JStr s)
  | JNative name => atom (JNative name)
  end.

End Induction.

(** ToPrimitive: an object, an array or a function becomes its text. *)
Definition to_primitive (v : jsval) : result jsval :=
  match v with
  | JArr _ | JObj _ | JNative _ => text <- js_to_string v ;; Ok (JStr text)
  | _ => Ok v
  end.

(** ToNumber of a primitive that is no string. *)
Inductive number : Type :=
| Finite (n : Z)
| Infinite (negative : bool)
| NotANumber.

Definition to_number (v : jsval) : number :=
  match v with
  | JNull => Finite 0
  | JBool b => Finite (if b then 1 else 0)
  | JNum n => Finite n
  | JInfinity negative => Infinite negative
  | _ => NotANumber
  end.

Definition number_sum (a b : number) : jsval :=
  match a, b with
  | Finite x, Finite y => nearest_double (x + y)
  | Infinite s, Finite _ | Finite _, Infinite s => JInfinity s
  | Infinite s, Infinite t => if Bool.eqb s t then JInfinity s else JNaN
  | _, _ => JNaN
  end.

(** The [+] operator: both operands are made primitive, the left one
    first; the result is the concatenation of their texts as soon as one of
    them is a string, and the sum of their numbers otherwise. *)
Definition js_plus (a b : jsval) : result jsval :=
  pa <- to_primitive a ;;
  pb <- to_primitive b ;;
  match pa, pb with
  | JStr _, _ | _, JStr _ =>
      ta <- js_to_string pa ;;
      tb <- js_to_string pb ;;
      Ok (JStr (ta ++ tb))
  | _, _ => Ok (number_sum (to_number pa) (to_number pb))
  end.

(** [+] with a string on one side: ['entity' + v] and [v + "0"]. *)
Definition string_plus (s : string) (v : jsval) : result string :=
  text <- js_to_string v ;; Ok (s ++ text).

Definition plus_string (v : jsval) (s : string) : result string :=
  text <- js_to_string v ;; Ok (text ++ s).

(** *** Properties *)

(** A property name that is an array index: the canonical decimal numeral. *)
Definition array_index (k : string) : option nat :=
  match NilEmpty.uint_of_string k with
  | Some u =>
      let n := Nat.of_uint u in
      if NilEmpty.string_of_uint (Nat.to_uint n) =? k then Some n else None
  | None => None
  end.

(** A code unit of the surrogate range, as three bytes. *)
Definition surrogate (u : N) : string :=
  String (ascii_of_N (224 + u / 4096))
    (String (ascii_of_N (128 + (u / 64) mod 64))
       (String (ascii_of_N (128 + u mod 64)) EmptyString)).

(** The UTF-16 code units of a text, which is what the [length] and the
    indices of a JavaScript string count: a character of one, two or three
    bytes is one unit, a character of four bytes is a pair of surrogates.
    Each unit is given as the text it makes alone. *)
Fixpoint units (s : string) : list string :=
  match s with
  | EmptyString => []
  | String a s1 =>
      let alone := String a EmptyString :: units s1 in
      if (N_of_ascii a <? 192)%N then alone
      else
        match s1 with
        | EmptyString => alone
        | String b s2 =>
            if (N_of_ascii a <? 224)%N
            then String a (String b EmptyString) :: units s2
            else
              match s2 with
              | EmptyString => alone
              | String c s3 =>
                  if (N_of_ascii a <? 240)%N
                  then String a (String b (String c EmptyString)) :: units s3
                  else
                    match s3 with
                    | EmptyString => alone
                    | String d s4 =>
                        let point :=
                          ((N_of_ascii a - 240) * 262144 + (N_of_ascii b - 128) * 4096
                           + (N_of_ascii c - 128) * 64 + (N_of_ascii d - 128) - 65536)%N in
                        surrogate (55296 + point / 1024)
                        :: surrogate (56320 + point mod 1024) :: units s4
                    end
              end
        end
  end.

(** Property read [v[k]] on the own properties of [v], for a name [k]
    that no prototype has a member for.  Reading a property of [null] or
    [undefined] throws; a missing property reads as [undefined]. *)
Definition js_get (v : jsval) (k : string) : result jsval :=
  match v with
  | JUndefined | JNull => Throw TypeError
  | JNaN | JInfinity _ | JBool _ | JNum _ | JNative _ => Ok JUndefined
  | JStr s =>
      if k =? "length" then Ok (JNum (Z.of_nat (List.length (units s))))
      else match array_index k with
           | Some i => match nth_error (units s) i with
                       | Some unit => Ok (JStr unit)
                       | None => Ok JUndefined
                       end
           | None => Ok JUndefined
           end
  | JArr xs =>
      if k =? "length" then Ok (JNum (Z.of_nat (List.length xs)))
      else match array_index k with
           | Some i => Ok (nth i xs JUndefined)
           | None => Ok JUndefined
           end
  | JObj fields =>
      match assoc k fields with
      | Some x => Ok x
      | None => Ok JUndefined
      end
  end.

Fixpoint set_field (k : string) (x : jsval) (fields : list (string * jsval))
  : list (string * jsval) :=
  match fields with
  | [] => [(k, x)]
  | (k', y) :: fields' =>
      if k' =? k then (k, x) :: fields' else (k', y) :: set_field k x fields'
  end.

(** Property write [v[k] = x] for a name [k] that is not an array index.
    The file is in strict mode, so writing to a primitive throws.  On an
    array the write adds a named property, which neither the index reads nor
    [JSON.stringify] see: the array value is unchanged. *)
Definition js_set (v : jsval) (k : string) (x : jsval) : result jsval :=
  match v with
  | JObj fields => Ok (JObj (set_field k x fields))
  | JArr xs => Ok (JArr xs)
  | JNative name => Ok (JNative name)
  | _ => Throw TypeError
  end.

(** [Object.keys(v)], also the names a [for (key in v)] loop visits when
    guarded by [hasOwnProperty]. *)
Definition Object_keys (v : jsval) : list string :=
  match v with
  | JObj fields => map fst fields
  | JArr xs =>
      map (fun i => NilEmpty.string_of_uint (Nat.to_uint i)) (seq 0 (List.length xs))
  | JStr s =>
      map (fun i => NilEmpty.string_of_uint (Nat.to_uint i))
        (seq 0 (List.length (units s)))
  | _ => []
  end.

(** The parts of the JavaScript runtime the chaincode calls and whose
    definition lies outside it: the JSON parser and printer, the loose
    equality operator [==], and what the prototype chain of a value answers
    for a name the value has no own property for ([undefined] when no
    prototype has such a member). *)
Class JSRuntime : Type := {
  JSON_parse : string -> option jsval;
  JSON_stringify : jsval -> string;
  loose_eq : jsval -> jsval -> bool;
  inherited : jsval -> string -> jsval
}.

(* ================================================================== *)
(** ** The stub: ledger access as fabric-shim offers it *)
(* ================================================================== *)

(** A key with its stored bytes, the element of a range scan.  A [Buffer]
    is modelled by the string [toString('utf8')] gives for it. *)
Module KV.
Record t : Type := { key : string; value : string }.
End KV.

(** One record of the change log of a key. *)
Module KeyModification.
Record t : Type := {
  tx_id : string;
  timestamp : Z * Z;
  is_delete : bool;
  value : string
}.
End KeyModification.

(** What [iterator.next()] resolves to: [{value, done}], where [value] may
    be missing. *)
Module IterResult.
Record t (A : Type) : Type := { value : option A; done : bool }.
Arguments value {A} _.
Arguments done {A} _.
End IterResult.

Inductive NextOutcome (A : Type) : Type :=
| Resolve (res : IterResult.t A)
| Reject (reason : string).
Arguments Resolve {A} res.
Arguments Reject {A} reason.

(** An iterator: the outcomes its coming [next()] calls will have, and how
    often [close()] was called on it.  Past the last outcome [next()]
    resolves to [{done: true}], as the iterators of fabric-shim do. *)
Module Iterator.
Record t (A : Type) : Type := { pending : list (NextOutcome A); closed : nat }.
Arguments pending {A} _.
Arguments closed {A} _.

Definition next {A : Type} (it : t A) : NextOutcome A * t A :=
  match pending it with
  | [] => (Resolve {| IterResult.value := None; IterResult.done := true |}, it)
  | o :: rest => (o, {| pending := rest; closed := closed it |})
  end.

Definition close {A : Type} (it : t A) : t A :=
  {| pending := pending it; closed := S (closed it) |}.
End Iterator.

(** The methods of [stub] the chaincode calls, over a ledger state [S].
    [getState] answers [None] where the shim would hand back no buffer at
    all.  [getHistoryForKey] receives the value of [docType + key] as it is. *)
Class Stub (S : Type) : Type := {
  getState : S -> string -> option string;
  putState : S -> string -> string -> S;
  getStateByRange : S -> string -> string -> Iterator.t KV.t;
  getHistoryForKey : S -> jsval -> Iterator.t KeyModification.t
}.

(* ================================================================== *)
(** ** The chaincode *)
(* ================================================================== *)

(** An element of the array [queryByString] serialises: [{Key, Record}]. *)
Module QueryResult.
Record t : Type := { Key : string; Record_ : jsval }.
End QueryResult.

(** An element of the array [queryHistoryForKey] serialises. *)
Module HistoryResult.
Record t : Type := {
  TxId : string;
  Timestamp : Z * Z;
  IsDelete : string;
  Record_ : jsval
}.
End HistoryResult.

(** How one pass through the body of a [while (true)] loop ends: by
    [continue], by reaching the test of [res.done], or by an exception. *)
Inductive flow (A : Type) : Type :=
| Continue (a : A)
| Fallthrough (a : A)
| Abort (e : exn).
Arguments Continue {A} a.
Arguments Fallthrough {A} a.
Arguments Abort {A} e.

(** The errors the chaincode throws.  [thrown message v] is what
    [throw new Error(message + v)] raises: the [Error] with the text of [v]
    after the message, or the exception of the conversion of [v] when that
    throws first. *)
Definition thrown (message : string) (v : jsval) : exn :=
  match js_to_string v with
  | Ok text => Error (message ++ text)
  | Throw e => e
  end.

Definition KeyDoesNotExist (key : string) : exn :=
  Error ("##### queryByKey key: " ++ key ++ " does not exist").

Definition MissingDocType (queryString : string) : exn :=
  Error ("##### queryByString - Cannot call queryByString without a docType element: "
         ++ queryString).

Definition EntityAlreadyExists (entityRegistrationNumber : jsval) : exn :=
  thrown "##### createEntity - This Entity already exists: " entityRegistrationNumber.

Definition EntityDoesNotExist (entityRegistrationNumber : jsval) : exn :=
  thrown "##### createEntry - Cannot create entry as the Entity does not exist: "
    entityRegistrationNumber.

Definition EntryAlreadyExists (entryId : jsval) : exn :=
  thrown "##### createEntry - This Entry already exists: " entryId.

Section Chaincode.
Context {RT : JSRuntime} {S : Type} {ST : Stub S}.

(** [JSON.parse] as a computation that may throw. *)
Definition parse (text : string) : result jsval :=
  match JSON_parse text with
  | Some v => Ok v
  | None => Throw SyntaxError
  end.

(** Lines 32-43. *)
Definition queryByKey (stub : S) (key : string) : result string :=
  match getState stub key with
  | None => Throw (KeyDoesNotExist key)
  | Some resultAsBytes =>
      if (String.length resultAsBytes <=? 0)%nat
      then Throw (KeyDoesNotExist key)
      else Ok resultAsBytes
  end.

(** Lines 90-96: [JSON.parse] in a [try], the text itself in the [catch]. *)
Definition decode (text : string) : jsval :=
  match JSON_parse text with
  | Some v => v
  | None => JStr text
  end.

(** Property read [v[k]] for any name [k]: the own property, or else
    what [v] inherits under that name. *)
Definition js_read (v : jsval) (k : string) : result jsval :=
  own <- js_get v k ;;
  match own with
  | JUndefined => Ok (inherited v k)
  | _ => Ok own
  end.

(** The call [v.hasOwnProperty(key)].  A value with no own property of that
    name inherits the method of [Object.prototype]; an own property of that
    name hides it, and is no function in a parsed JSON value. *)
Definition hasOwnProperty (v : jsval) (key : string) : result bool :=
  method <- js_get v "hasOwnProperty" ;;
  match method with
  | JUndefined => Ok (existsb (String.eqb key) (Object_keys v))
  | _ => Throw TypeError
  end.

(** Lines 108-121: the [for (var key in jsonRecord)] loop, over the
    enumerable names of [jsonRecord].  The log lines 110 and 114 convert the
    selector's value and the record's value to text before the test. *)
Fixpoint for_in (jsonRecord : jsval) (jsonRes : QueryResult.t) (keys : list string)
  (allResults : list QueryResult.t) : result (list QueryResult.t) :=
  match keys with
  | [] => Ok allResults
  | key :: keys' =>
      own <- hasOwnProperty jsonRecord key ;;
      if own then
        expected <- js_get jsonRecord key ;;
        _ <- js_to_string expected ;;
        if key =? "docType" then for_in jsonRecord jsonRes keys' allResults
        else
          found <- js_read (QueryResult.Record_ jsonRes) key ;;
          _ <- js_to_string found ;;
          if negb (truthy found && loose_eq found expected)
          then for_in jsonRecord jsonRes keys' allResults
          else for_in jsonRecord jsonRes keys' (allResults ++ [jsonRes])%list
      else for_in jsonRecord jsonRes keys' allResults
  end.

(** Lines 85-125: the body of the [while (true)] loop of [queryByString], up
    to the test of [res.done].  The value an iterator yields is read as a
    Node [Buffer]: its [toString()] is its text. *)
Definition scan_body (jsonQueryString : jsval) (res : IterResult.t KV.t)
  (allResults : list QueryResult.t) : flow (list QueryResult.t) :=
  match IterResult.value res with
  | Some kv =>
      if truthy (JStr (KV.value kv)) then
        let jsonRes := {| QueryResult.Key := KV.key kv;
                          QueryResult.Record_ := decode (KV.value kv) |} in
        match js_get jsonQueryString "selector" with
        | Throw e => Abort e
        | Ok jsonRecord =>
            if (List.length (Object_keys jsonRecord) =? 1)%nat
            then Continue (allResults ++ [jsonRes])%list
            else match for_in jsonRecord jsonRes (Object_keys jsonRecord) allResults with
                 | Throw e => Abort e
                 | Ok allResults' => Fallthrough allResults'
                 end
        end
      else Fallthrough allResults
  | None => Fallthrough allResults
  end.

(** Lines 82-132: the [while (true)] loop.  The recursion is on the outcomes
    the iterator still holds; [closed] is its count of [close()] calls. *)
Fixpoint scan (jsonQueryString : jsval) (pending : list (NextOutcome KV.t))
  (closed : nat) (allResults : list QueryResult.t)
  : result (list QueryResult.t) * Iterator.t KV.t :=
  match pending with
  | [] =>
      (Ok allResults,
       Iterator.close {| Iterator.pending := []; Iterator.closed := closed |})
  | Reject reason :: rest =>
      (Throw (StubFailure reason),
       {| Iterator.pending := rest; Iterator.closed := closed |})
  | Resolve res :: rest =>
      let iterator := {| Iterator.pending := rest; Iterator.closed := closed |} in
      match scan_body jsonQueryString res allResults with
      | Abort e => (Throw e, iterator)
      | Continue allResults' => scan jsonQueryString rest closed allResults'
      | Fallthrough allResults' =>
          if IterResult.done res
          then (Ok allResults', Iterator.close iterator)
          else scan jsonQueryString rest closed allResults'
      end
  end.

(** Lines 64-75: the scan bounds [docType + "0"] and [docType + "z"], or
    the error for a missing [docType]. *)
Definition range_of (queryString : string) (jsonQueryString : jsval)
  : result (string * string) :=
  selector <- js_get jsonQueryString "selector" ;;
  if truthy selector then
    docType <- js_get selector "docType" ;;
    if truthy docType
    then
      startKey <- plus_string docType "0" ;;
      endKey <- plus_string docType "z" ;;
      Ok (startKey, endKey)
    else Throw (MissingDocType queryString)
  else Throw (MissingDocType queryString).

(** Lines 53-133.  The function returns
    [Buffer.from(JSON.stringify(allResults))]; the model returns
    [allResults], and with it the iterator as the call leaves it (if the
    call got as far as opening one). *)
Definition queryByString (stub : S) (queryString : string)
  : result (list QueryResult.t) * option (Iterator.t KV.t) :=
  match parse queryString with
  | Throw e => (Throw e, None)
  | Ok jsonQueryString =>
      match range_of queryString jsonQueryString with
      | Throw e => (Throw e, None)
      | Ok (startKey, endKey) =>
          let iterator := getStateByRange stub startKey endKey in
          let (r, iterator') :=
            scan jsonQueryString (Iterator.pending iterator)
                 (Iterator.closed iterator) [] in
          (r, Some iterator')
      end
  end.

(** Lines 368-382: the body of the loop of [queryHistoryForKey].  As in
    the scan, the [toString()] of the value is its text. *)
Definition history_body (historyRecord : IterResult.t KeyModification.t)
  (history : list HistoryResult.t) : list HistoryResult.t :=
  match IterResult.value historyRecord with
  | Some km =>
      if truthy (JStr (KeyModification.value km)) then
        (history ++
         [ {| HistoryResult.TxId := KeyModification.tx_id km;
              HistoryResult.Timestamp := KeyModification.timestamp km;
              HistoryResult.IsDelete :=
                if KeyModification.is_delete km then "true" else "false";
              HistoryResult.Record_ := decode (KeyModification.value km) |} ])%list
      else history
  | None => history
  end.

(** Lines 365-389. *)
Fixpoint replay (pending : list (NextOutcome KeyModification.t)) (closed : nat)
  (history : list HistoryResult.t)
  : result (list HistoryResult.t) * Iterator.t KeyModification.t :=
  match pending with
  | [] =>
      (Ok history,
       Iterator.close {| Iterator.pending := []; Iterator.closed := closed |})
  | Reject reason :: rest =>
      (Throw (StubFailure reason),
       {| Iterator.pending := rest; Iterator.closed := closed |})
  | Resolve historyRecord :: rest =>
      let history' := history_body historyRecord history in
      if IterResult.done historyRecord
      then (Ok history',
            Iterator.close {| Iterator.pending := rest; Iterator.closed := closed |})
      else replay rest closed history'
  end.

(** Lines 358-362: the key whose history is asked for, [docType + key].
    The log line 361 converts [key] to text first. *)
Definition history_key (args : string) : result jsval :=
  json <- parse args ;;
  key <- js_get json "key" ;;
  docType <- js_get json "docType" ;;
  _ <- string_plus "##### queryHistoryForKey key: " key ;;
  js_plus docType key.

(** Lines 353-390. *)
Definition queryHistoryForKey (stub : S) (args : string)
  : result (list HistoryResult.t) * option (Iterator.t KeyModification.t) :=
  match history_key args with
  | Throw e => (Throw e, None)
  | Ok historyKey =>
      let historyIterator := getHistoryForKey stub historyKey in
      let (r, historyIterator') :=
        replay (Iterator.pending historyIterator)
               (Iterator.closed historyIterator) [] in
      (r, Some historyIterator')
  end.

(** Lines 211-230.  A handler that changes the ledger returns the ledger
    as it leaves it. *)
Definition createEntity (stub : S) (args : string) : result unit * S :=
  match (json <- parse args ;;
         entityRegistrationNumber <- js_get json "entityRegistrationNumber" ;;
         key <- string_plus "entity" entityRegistrationNumber ;;
         json' <- js_set json "docType" (JStr "entity") ;;
         Ok (json', entityRegistrationNumber, key)) with
  | Throw e => (Throw e, stub)
  | Ok (json, entityRegistrationNumber, key) =>
      match getState stub key with
      | None => (Throw TypeError, stub)
      | Some entityQuery =>
          if truthy (JStr entityQuery)
          then (Throw (EntityAlreadyExists entityRegistrationNumber), stub)
          else (Ok tt, putState stub key (JSON_stringify json))
      end
  end.

(** Lines 238-248. *)
Definition queryEntity (stub : S) (args : string) : result string :=
  json <- parse args ;;
  entityRegistrationNumber <- js_get json "entityRegistrationNumber" ;;
  key <- string_plus "entity" entityRegistrationNumber ;;
  queryByKey stub key.

(** Lines 288-314. *)
Definition createEntry (stub : S) (args : string) : result unit * S :=
  match (json <- parse args ;;
         entryId <- js_get json "entryId" ;;
         key <- string_plus "entry" entryId ;;
         json' <- js_set json "docType" (JStr "entry") ;;
         entityRegistrationNumber <- js_get json' "entityRegistrationNumber" ;;
         entityKey <- string_plus "entity" entityRegistrationNumber ;;
         Ok (json', entryId, key, entityRegistrationNumber, entityKey)) with
  | Throw e => (Throw e, stub)
  | Ok (json, entryId, key, entityRegistrationNumber, entityKey) =>
      match getState stub entityKey with
      | None => (Throw TypeError, stub)
      | Some entityQuery =>
          if negb (truthy (JStr entityQuery))
          then (Throw (EntityDoesNotExist entityRegistrationNumber), stub)
          else
            match getState stub key with
            | None => (Throw TypeError, stub)
            | Some entryQuery =>
                if truthy (JStr entryQuery)
                then (Throw (EntryAlreadyExists entryId), stub)
                else (Ok tt, putState stub key (JSON_stringify json))
            end
      end
  end.

End Chaincode.

(** A text between double quotes, for the JSON texts written below. *)
Definition quoted (s : string) : string :=
  String (ascii_of_nat 34) s ++ String (ascii_of_nat 34) EmptyString.

(** Lines 256-262. *)
Definition queryAllEntities {RT : JSRuntime} {S : Type} {ST : Stub S}
  (stub : S) (args : string) :=
  queryByString stub
    ("{" ++ quoted "selector" ++ ": {" ++ quoted "docType" ++ ": "
         ++ quoted "entity" ++ "}}").

(* ================================================================== *)
(** ** The chaincode object: Init, Invoke and the remaining handlers *)
(* ================================================================== *)

(** What a handler returns to [Invoke], and the response [Invoke] makes of
    it with [shim.success] or [shim.error].  A query handler returns
    [Buffer.from(JSON.stringify(...))] of an array; the payload holds the
    array. *)
Inductive payload : Type :=
| PUndefined
| PBytes (bytes : string)
| PResults (allResults : list QueryResult.t)
| PHistory (history : list HistoryResult.t)
| PResponse (r : response)
with response : Type :=
| shim_success (p : payload)
| shim_error (e : exn).

Definition NoSuchFunction (fcn : string) : exn :=
  Error ("No chaincode function with name: " ++ fcn ++ " found").

(** Lines 148-151. *)
Definition Init {S : Type} (stub : S) : response := shim_success PUndefined.

(** Lines 185-188: nothing but two log lines. *)
Definition initLedger {S : Type} (stub : S) (args : string) : result payload * S :=
  (Ok PUndefined, stub).

(** Lines 325-335: the query is commented out; two log lines remain. *)
Definition queryEntriesByOrderId {S : Type} (stub : S) (args : string)
  : result payload * S :=
  (Ok PUndefined, stub).

(** [ret.params] is an array of strings; a handler hands it to
    [JSON.parse], which reads the text [ToString] makes of an array: its
    elements joined by commas. *)
Definition args_text (params : list string) : string := String.concat "," params.

Section Dispatch.
Context {RT : JSRuntime} {S : Type} {ST : Stub S}.

(** For a name that is no handler of the class: what the call of the member
    the chaincode object inherits under that name gives ([toString],
    [constructor], ...), and [None] when it inherits none. *)
Variable prototype_call : string -> option (result payload).

(** Line 164, [this[ret.fcn]]: the handler of that name, as a function of
    the stub and the parameters.  A handler is called without [this]: the
    [Invoke] so reached throws at its own [this[ret.fcn]]. *)
Definition method (fcn : string) : option (S -> list string -> result payload * S) :=
  if fcn =? "Init" then
    Some (fun stub _ => (Ok (PResponse (Init stub)), stub))
  else if fcn =? "Invoke" then
    Some (fun stub _ => (Throw TypeError, stub))
  else if fcn =? "initLedger" then
    Some (fun stub params => initLedger stub (args_text params))
  else if fcn =? "createEntity" then
    Some (fun stub params =>
            let (r, stub') := createEntity stub (args_text params) in
            (_ <- r ;; Ok PUndefined, stub'))
  else if fcn =? "queryEntity" then
    Some (fun stub params =>
            (bytes <- queryEntity stub (args_text params) ;; Ok (PBytes bytes), stub))
  else if fcn =? "queryAllEntities" then
    Some (fun stub params =>
            (allResults <- fst (queryAllEntities stub (args_text params)) ;;
             Ok (PResults allResults), stub))
  else if fcn =? "createEntry" then
    Some (fun stub params =>
            let (r, stub') := createEntry stub (args_text params) in
            (_ <- r ;; Ok PUndefined, stub'))
  else if fcn =? "queryEntriesByOrderId" then
    Some (fun stub params => queryEntriesByOrderId stub (args_text params))
  else if fcn =? "queryHistoryForKey" then
    Some (fun stub params =>
            (history <- fst (queryHistoryForKey stub (args_text params)) ;;
             Ok (PHistory history), stub))
  else
    match prototype_call fcn with
    | Some outcome => Some (fun stub _ => (outcome, stub))
    | None => None
    end.

(** Lines 159-177.  [fcn] and [params] are what
    [stub.getFunctionAndParameters()] answers. *)
Definition Invoke (stub : S) (fcn : string) (params : list string)
  : result response * S :=
  match method fcn with
  | None => (Throw (NoSuchFunction fcn), stub)
  | Some m =>
      match m stub params with
      | (Ok response, stub') => (Ok (shim_success response), stub')
      | (Throw err, stub') => (Ok (shim_error err), stub')
      end
  end.

(** A sequence of invocations, each on the ledger the one before left. *)
Fixpoint invocations (stub : S) (calls : list (string * list string)) : S :=
  match calls with
  | [] => stub
  | (fcn, params) :: calls' => invocations (snd (Invoke stub fcn params)) calls'
  end.

End Dispatch.

(* ================================================================== *)
(** ** The ledger behind the stub *)
(* ================================================================== *)

(** The outcomes of an iterator that delivers the elements of [l] in order.
    With [flag_last] the last element comes with [done: true] (fabric-shim
    1.x); without it every element comes with [done: false] and the end is
    the [{done: true}] that follows (fabric-shim 2.x). *)
Fixpoint deliver {A : Type} (flag_last : bool) (l : list A) : list (NextOutcome A) :=
  match l with
  | [] => []
  | x :: l' =>
      Resolve {| IterResult.value := Some x;
                 IterResult.done :=
                   flag_last && match l' with [] => true | _ :: _ => false end |}
      :: deliver flag_last l'
  end.

Module Ledger.

(** The world state is an ordered key-value store: a list of bindings kept
    in ascending key order.  The log holds the committed changes of all
    keys, oldest first. *)
Record t : Type := {
  world : list (string * string);
  log : list (string * KeyModification.t);
  flag_last : bool
}.

Definition key_lt (a b : string * string) : Prop :=
  String.ltb (fst a) (fst b) = true.

(** The invariant of the world state: strictly ascending keys. *)
Definition ordered (w : list (string * string)) : Prop :=
  StronglySorted key_lt w.

Fixpoint insert (k v : string) (w : list (string * string)) : list (string * string) :=
  match w with
  | [] => [(k, v)]
  | (k', v') :: w' =>
      match String.compare k k' with
      | Lt => (k, v) :: (k', v') :: w'
      | Eq => (k, v) :: w'
      | Gt => (k', v') :: insert k v w'
      end
  end.

Definition in_range (startKey endKey : string) (b : string * string) : bool :=
  String.leb startKey (fst b) && String.ltb (fst b) endKey.

Definition to_KV (b : string * string) : KV.t :=
  {| KV.key := fst b; KV.value := snd b |}.

(** The bindings a range scan meets: those with [startKey <= key < endKey],
    in the order of the store. *)
Definition range (startKey endKey : string) (w : list (string * string)) : list KV.t :=
  map to_KV (filter (in_range startKey endKey) w).

(** The change log of one key. *)
Definition changes (k : string) (l : list (string * KeyModification.t))
  : list KeyModification.t :=
  map snd (filter (fun c => fst c =? k) l).

(** The shim answers [getState] of a key that has no value with an empty
    buffer.  Changes reach the log when the transaction commits, so
    [putState] leaves it alone. *)
#[global] Instance stub : Stub t := {
  getState l k :=
    match assoc k (world l) with
    | Some v => Some v
    | None => Some ""
    end;
  putState l k v :=
    {| world := insert k v (world l); log := log l; flag_last := flag_last l |};
  getStateByRange l startKey endKey :=
    {| Iterator.pending := deliver (flag_last l) (range startKey endKey (world l));
       Iterator.closed := 0 |};
  getHistoryForKey l k :=
    {| Iterator.pending :=
         deliver (flag_last l)
           match k with
           | JStr key => changes key (log l)
           | _ => []
           end;
       Iterator.closed := 0 |}
}.

End Ledger.

(** A stub whose iterators answer from a script, to run the chaincode
    against a peer that fails in the middle of an iteration. *)
Module Scripted.

Record t : Type := {
  state : list (string * string);
  range_outcomes : list (NextOutcome KV.t);
  history_outcomes : list (NextOutcome KeyModification.t)
}.

#[global] Instance stub : Stub t := {
  getState s k :=
    match assoc k (state s) with
    | Some v => Some v
    | None => Some ""
    end;
  putState s k v :=
    {| state := Ledger.insert k v (state s);
       range_outcomes := range_outcomes s;
       history_outcomes := history_outcomes s |};
  getStateByRange s _ _ :=
    {| Iterator.pending := range_outcomes s; Iterator.closed := 0 |};
  getHistoryForKey s _ :=
    {| Iterator.pending := history_outcomes s; Iterator.closed := 0 |}
}.

End Scripted.

(* ================================================================== *)
(** ** A reference runtime *)
(* ================================================================== *)

(** A JSON reader and printer and an equality test to run the chaincode
    on concrete texts.  The reader accepts the JSON texts whose numbers are
    integer literals, read as the nearest double, and whose strings use the
    two-character escapes; it rejects the others.  The theorems below hold for every runtime, this one
    included. *)
Module Reference.

Definition is_ws (c : ascii) : bool :=
  let n := nat_of_ascii c in
  ((n =? 32) || (n =? 9) || (n =? 10) || (n =? 13))%nat.

Fixpoint skip_ws (s : string) : string :=
  match s with
  | String c s' => if is_ws c then skip_ws s' else s
  | EmptyString => s
  end.

(** [strip p s]: [s] without its prefix [p]. *)
Fixpoint strip (p s : string) : option string :=
  match p, s with
  | EmptyString, _ => Some s
  | String a p', String b s' => if Ascii.eqb a b then strip p' s' else None
  | String _ _, EmptyString => None
  end.

Definition digit (c : ascii) : option Z :=
  let n := nat_of_ascii c in
  if ((48 <=? n) && (n <=? 57))%nat then Some (Z.of_nat (n - 48)) else None.

Fixpoint digits (acc : Z) (s : string) : Z * string :=
  match s with
  | String c s' =>
      match digit c with
      | Some d => digits (acc * 10 + d) s'
      | None => (acc, s)
      end
  | EmptyString => (acc, s)
  end.

(** The digits of an integer literal: [0] alone or no leading zero, and no
    fraction or exponent after them. *)
Definition natural (s : string) : option (Z * string) :=
  match s with
  | String c s' =>
      match digit c with
      | Some d =>
          let (n, rest) := if (d =? 0)%Z then (0%Z, s') else digits d s' in
          match rest with
          | String c' _ =>
              let m := nat_of_ascii c' in
              if ((m =? 46) || (m =? 101) || (m =? 69))%nat then None
              else match digit c' with
                   | Some _ => None
                   | None => Some (n, rest)
                   end
          | EmptyString => Some (n, rest)
          end
      | None => None
      end
  | EmptyString => None
  end.

Definition unescape (c : ascii) : option ascii :=
  let n := nat_of_ascii c in
  if (n =? 34)%nat then Some c
  else if (n =? 92)%nat then Some c
  else if (n =? 47)%nat then Some c
  else if (n =? 98)%nat then Some (ascii_of_nat 8)
  else if (n =? 102)%nat then Some (ascii_of_nat 12)
  else if (n =? 110)%nat then Some (ascii_of_nat 10)
  else if (n =? 114)%nat then Some (ascii_of_nat 13)
  else if (n =? 116)%nat then Some (ascii_of_nat 9)
  else None.

(** The characters of a string literal after its opening quote. *)
Fixpoint string_body (s : string) : option (string * string) :=
  match s with
  | EmptyString => None
  | String c s' =>
      let n := nat_of_ascii c in
      if (n =? 34)%nat then Some (EmptyString, s')
      else if (n =? 92)%nat then
        match s' with
        | String e s'' =>
            match unescape e, string_body s'' with
            | Some c', Some (body, rest) => Some (String c' body, rest)
            | _, _ => None
            end
        | EmptyString => None
        end
      else if (n <? 32)%nat then None
      else match string_body s' with
           | Some (body, rest) => Some (String c body, rest)
           | None => None
           end
  end.

Fixpoint value (fuel : nat) (s : string) : option (jsval * string) :=
  match fuel with
  | O => None
  | S fuel' =>
      let s := skip_ws s in
      match strip "null" s, strip "true" s, strip "false" s with
      | Some rest, _, _ => Some (JNull, rest)
      | _, Some rest, _ => Some (JBool true, rest)
      | _, _, Some rest => Some (JBool false, rest)
      | None, None, None =>
          match s with
          | EmptyString => None
          | String c rest =>
              let n := nat_of_ascii c in
              if (n =? 34)%nat then
                match string_body rest with
                | Some (body, rest') => Some (JStr body, rest')
                | None => None
                end
              else if (n =? 91)%nat then
                match strip "]" (skip_ws rest) with
                | Some rest' => Some (JArr [], rest')
                | None =>
                    match elements fuel' rest with
                    | Some (xs, rest') => Some (JArr xs, rest')
                    | None => None
                    end
                end
              else if (n =? 123)%nat then
                match strip "}" (skip_ws rest) with
                | Some rest' => Some (JObj [], rest')
                | None =>
                    match members fuel' rest with
                    | Some (fs, rest') =>
                        Some (JObj (fold_left (fun acc f => set_field (fst f) (snd f) acc)
                                              fs []), rest')
                    | None => None
                    end
                end
              else if (n =? 45)%nat then
                match natural rest with
                | Some (z, rest') => Some (nearest_double (- z), rest')
                | None => None
                end
              else
                match natural s with
                | Some (z, rest') => Some (nearest_double z, rest')
                | None => None
                end
          end
      end
  end
with elements (fuel : nat) (s : string) : option (list jsval * string) :=
  match fuel with
  | O => None
  | S fuel' =>
      match value fuel' s with
      | Some (x, rest) =>
          let rest := skip_ws rest in
          match strip "]" rest, strip "," rest with
          | Some rest', _ => Some ([x], rest')
          | None, Some rest' =>
              match elements fuel' rest' with
              | Some (xs, rest'') => Some (x :: xs, rest'')
              | None => None
              end
          | None, None => None
          end
      | None => None
      end
  end
with members (fuel : nat) (s : string) : option (list (string * jsval) * string) :=
  match fuel with
  | O => None
  | S fuel' =>
      match strip (String (ascii_of_nat 34) EmptyString) (skip_ws s) with
      | Some s1 =>
          match string_body s1 with
          | Some (k, s2) =>
              match strip ":" (skip_ws s2) with
              | Some s3 =>
                  match value fuel' s3 with
                  | Some (x, rest) =>
                      let rest := skip_ws rest in
                      match strip "}" rest, strip "," rest with
                      | Some rest', _ => Some ([(k, x)], rest')
                      | None, Some rest' =>
                          match members fuel' rest' with
                          | Some (fs, rest'') => Some ((k, x) :: fs, rest'')
                          | None => None
                          end
                      | None, None => None
                      end
                  | None => None
                  end
              | None => None
              end
          | None => None
          end
      | None => None
      end
  end.

Definition read (text : string) : option jsval :=
  match value (2 * String.length text + 2) text with
  | Some (v, rest) => if skip_ws rest =? "" then Some v else None
  | None => None
  end.

Fixpoint escape (s : string) : string :=
  match s with
  | EmptyString => EmptyString
  | String c s' =>
      let n := nat_of_ascii c in
      if ((n =? 34) || (n =? 92))%nat then String (ascii_of_nat 92) (String c (escape s'))
      else if (n =? 10)%nat then String (ascii_of_nat 92) (String "n" (escape s'))
      else if (n =? 13)%nat then String (ascii_of_nat 92) (String "r" (escape s'))
      else if (n =? 9)%nat then String (ascii_of_nat 92) (String "t" (escape s'))
      else String c (escape s')
  end.

Fixpoint print (v : jsval) : string :=
  match v with
  | JUndefined | JNull | JNaN | JInfinity _ | JNative _ => "null"
  | JBool true => "true"
  | JBool false => "false"
  | JNum n => Number_toString n
  | JStr s => quoted (escape s)
  | JArr xs => "[" ++ String.concat "," (map print xs) ++ "]"
  | JObj fields =>
      "{" ++ String.concat ","
               ((fix members (fs : list (string * jsval)) : list string :=
                   match fs with
                   | [] => []
                   | (k, JUndefined) :: fs' | (k, JNative _) :: fs' => members fs'
                   | (k, x) :: fs' =>
                       (quoted (escape k) ++ ":" ++ print x) :: members fs'
                   end) fields)
          ++ "}"
  end.

(** [==] between two operands of one primitive type, and between [null]
    and [undefined].  Two objects are equal only when they are the same
    object, which a stored record and the selector never are.  The
    comparisons that convert an operand first (a string or boolean to a
    number, an object or function to a primitive) answer [false] here. *)
Definition equals (a b : jsval) : bool :=
  match a, b with
  | JUndefined, JUndefined | JUndefined, JNull
  | JNull, JUndefined | JNull, JNull => true
  | JInfinity x, JInfinity y | JBool x, JBool y => Bool.eqb x y
  | JNum x, JNum y => (x =? y)%Z
  | JStr x, JStr y => (x =? y)
  | _, _ => false
  end.

(** The members every value inherits from [Object.prototype]. *)
Definition Object_prototype : list string :=
  ["constructor"; "hasOwnProperty"; "isPrototypeOf"; "propertyIsEnumerable";
   "toLocaleString"; "toString"; "valueOf"; "__proto__";
   "__defineGetter__"; "__defineSetter__"; "__lookupGetter__"; "__lookupSetter__"].

Definition member (v : jsval) (k : string) : jsval :=
  if existsb (String.eqb k) Object_prototype then JNative k else JUndefined.

#[export] Instance runtime : JSRuntime := {
  JSON_parse := read;
  JSON_stringify := print;
  loose_eq := equals;
  inherited := member
}.

End Reference.

(* ================================================================== *)
(** ** Vocabulary of the statements *)
(* ================================================================== *)

(** A value whose properties can be read without an exception. *)
Definition readable (v : jsval) : bool :=
  match v with
  | JUndefined | JNull => false
  | _ => true
  end.

(** A value that converts to text without an exception. *)
Definition converts (v : jsval) : bool :=
  match js_to_string v with
  | Ok _ => true
  | Throw _ => false
  end.


(** The [docType] a parsed query string carries, if it has a selector
    object with such a field. *)
Definition docType_of (jsonQueryString : jsval) : option jsval :=
  match jsonQueryString with
  | JObj fields =>
      match assoc "selector" fields with
      | Some (JObj selector) => assoc "docType" selector
      | _ => None
      end
  | _ => None
  end.

Definition nonempty (kv : KV.t) : bool := negb (KV.value kv =? "").

Definition recorded (km : KeyModification.t) : bool :=
  negb (KeyModification.value km =? "").

Section Readings.
Context {RT : JSRuntime}.

(** The test of lines 111-118 for one selector field: the field is not
    [docType], the record has a truthy value for it, and that value [==]
    the selector's. *)
Definition field_matches (jsonRecord record : jsval) (key : string) : bool :=
  negb (key =? "docType") &&
  match js_read record key, js_get jsonRecord key with
  | Ok found, Ok expected => truthy found && loose_eq found expected
  | _, _ => false
  end.

(** The turn of the loop of lines 108-121 for one selector field runs
    without an exception: the selector's value converts to text (line 110)
    and, for a field beside [docType], the record can be read and what it
    has for the field converts to text (line 114). *)
Definition field_runs (jsonRecord record : jsval) (key : string) : bool :=
  match js_get jsonRecord key with
  | Ok expected =>
      converts expected
      && ((key =? "docType")
          || match js_read record key with
             | Ok found => converts found
             | Throw _ => false
             end)
  | Throw _ => false
  end.

(** The loop of lines 108-121 runs on a record without an exception. *)
Definition loop_runs (jsonRecord record : jsval) : bool :=
  forallb (field_runs jsonRecord record) (Object_keys jsonRecord).

(** The number of selector fields a record satisfies. *)
Definition hits (jsonRecord record : jsval) : nat :=
  List.length (filter (field_matches jsonRecord record) (Object_keys jsonRecord)).

Definition entry_of (kv : KV.t) : QueryResult.t :=
  {| QueryResult.Key := KV.key kv; QueryResult.Record_ := decode (KV.value kv) |}.

Definition history_of (km : KeyModification.t) : HistoryResult.t :=
  {| HistoryResult.TxId := KeyModification.tx_id km;
     HistoryResult.Timestamp := KeyModification.timestamp km;
     HistoryResult.IsDelete := if KeyModification.is_delete km then "true" else "false";
     HistoryResult.Record_ := decode (KeyModification.value km) |}.

(** The loop body applied to the elements a scan delivers, one after the
    other.  Whether the body ends by [continue] or reaches the test of
    [res.done] makes no difference here. *)
Fixpoint collect (jsonQueryString : jsval) (kvs : list KV.t)
  (allResults : list QueryResult.t) : result (list QueryResult.t) :=
  match kvs with
  | [] => Ok allResults
  | kv :: kvs' =>
      match scan_body jsonQueryString
              {| IterResult.value := Some kv; IterResult.done := false |} allResults with
      | Abort e => Throw e
      | Continue allResults' | Fallthrough allResults' =>
          collect jsonQueryString kvs' allResults'
      end
  end.

(** The number of times the loop body pushes the entry of a scanned
    element: once when the selector has a single field, and once per
    satisfied field otherwise. *)
Definition copies (jsonRecord : jsval) (kv : KV.t) : nat :=
  if (List.length (Object_keys jsonRecord) =? 1)%nat then 1
  else hits jsonRecord (decode (KV.value kv)).

Definition selected (jsonRecord : jsval) (kvs : list KV.t) : list QueryResult.t :=
  flat_map (fun kv => repeat (entry_of kv) (copies jsonRecord kv)) (filter nonempty kvs).

End Readings.

(* ================================================================== *)
(** ** Sample ledgers and calls *)
(* ================================================================== *)

Module Sample.

Definition object (members : list (string * string)) : string :=
  "{" ++ String.concat "," (map (fun m => quoted (fst m) ++ ":" ++ snd m) members) ++ "}".

Definition alpha : string :=
  object [("docType", quoted "entity"); ("entityRegistrationNumber", quoted "001");
          ("entityName", quoted "Alpha")].

Definition alpha2 : string :=
  object [("docType", quoted "entity"); ("entityRegistrationNumber", quoted "001");
          ("entityName", quoted "Alpha Mill")].

Definition beta : string :=
  object [("docType", quoted "entity"); ("entityRegistrationNumber", quoted "002");
          ("entityName", quoted "Beta")].

Definition change (tx : string) (seconds : Z) (deleted : bool) (bytes : string)
  : KeyModification.t :=
  {| KeyModification.tx_id := tx; KeyModification.timestamp := (seconds, 0%Z);
     KeyModification.is_delete := deleted; KeyModification.value := bytes |}.

(** The key [entity001] was written, rewritten and deleted; a deletion is
    logged with no value. *)
Definition three_changes : list (string * KeyModification.t) :=
  [("entity001", change "tx1" 1000 false alpha);
   ("entity002", change "tx2" 1001 false beta);
   ("entity001", change "tx3" 1002 false alpha2);
   ("entity001", change "tx4" 1003 true "")].

Definition entities : Ledger.t :=
  {| Ledger.world := [("entity001", alpha); ("entity002", beta)];
     Ledger.log := three_changes;
     Ledger.flag_last := true |}.


(** A ledger where one value is not JSON. *)
Definition garbled : Ledger.t :=
  {| Ledger.world := [("entity001", alpha); ("entity002", "Beta, unstructured")];
     Ledger.log := [("entity002", change "tx9" 1009 false "Beta, unstructured")];
     Ledger.flag_last := false |}.

(** A ledger where one value is the JSON text [null]. *)
Definition nulled : Ledger.t :=
  {| Ledger.world := [("entity001", "null"); ("entity002", beta)];
     Ledger.log := [];
     Ledger.flag_last := true |}.

(** A peer that delivers one change of the history and then fails. *)
Definition dropped : Scripted.t :=
  {| Scripted.state := [];
     Scripted.range_outcomes := [];
     Scripted.history_outcomes :=
       [ Resolve {| IterResult.value := Some (change "tx1" 1000 false alpha);
                    IterResult.done := false |};
         Reject "connection lost" ] |}.

Definition query (selector : list (string * string)) : string :=
  object [("selector", object selector)].

Definition all_entities : string := query [("docType", quoted "entity")].

Definition named_beta : string :=
  query [("docType", quoted "entity"); ("entityName", quoted "Beta")].

Definition named_alpha : string :=
  query [("docType", quoted "entity"); ("entityName", quoted "Alpha")].

Definition alpha_by_two : string :=
  query [("docType", quoted "entity"); ("entityName", quoted "Alpha");
         ("entityRegistrationNumber", quoted "001")].

Definition empty_docType : string := query [("docType", quoted "")].

(** An object with a property called [toString], and arguments that name
    it as an id. *)
Definition stringless : string := object [("toString", "1")].

Definition stringless_entity : string :=
  object [("entityRegistrationNumber", stringless)].

Definition stringless_entry : string :=
  object [("entryId", quoted "12341234"); ("entityRegistrationNumber", stringless)].

Definition stringless_key : string :=
  object [("key", stringless); ("docType", quoted "entity")].

(** A selector on the [length] of the record. *)
Definition of_length_18 : string := query [("docType", quoted "entity"); ("length", "18")].

(** A selector whose [docType] is an object with a property called
    [toString]. *)
Definition docType_object : string :=
  query [("docType", object [("toString", "1")])].

Definition history_args : string :=
  object [("key", quoted "001"); ("docType", quoted "entity")].

Definition nothing : Ledger.t :=
  {| Ledger.world := []; Ledger.log := []; Ledger.flag_last := true |}.

Definition farm_args : string :=
  object [("entityRegistrationNumber", quoted "6322"); ("entityName", quoted "ABC Farm")].

Definition farm : string :=
  object [("entityRegistrationNumber", quoted "6322"); ("entityName", quoted "ABC Farm");
          ("docType", quoted "entity")].

Definition entry_args (entityRegistrationNumber : string) : string :=
  object [("entryId", quoted "12341234");
          ("entityRegistrationNumber", quoted entityRegistrationNumber)].

End Sample.

(* ================================================================== *)
(** ** Invocations: vocabulary and samples *)
(* ================================================================== *)

(** The names of the handlers of the class. *)
Definition handlers : list string :=
  ["Init"; "Invoke"; "initLedger"; "createEntity"; "queryEntity"; "queryAllEntities";
   "createEntry"; "queryEntriesByOrderId"; "queryHistoryForKey"].

(** The text of the query [queryAllEntities] sends (line 260). *)
Definition all_entities_query : string :=
  "{" ++ quoted "selector" ++ ": {" ++ quoted "docType" ++ ": " ++ quoted "entity" ++ "}}".

(** A character of the band the scan bounds leave open: from ["0"] up to,
    and without, ["z"]. *)
Definition in_band (c : ascii) : Prop := 48 <= nat_of_ascii c < 122.

(** Two entries of a result stand in key order: same key, or the first
    key before the second. *)
Definition key_le (a b : QueryResult.t) : Prop :=
  QueryResult.Key a = QueryResult.Key b
  \/ String.ltb (QueryResult.Key a) (QueryResult.Key b) = true.


Module Demo.

(** The members a chaincode object inherits beside its handlers, called
    as [Invoke] calls them, without [this]: [toString] answers the text for
    [undefined], the others throw. *)
Definition natives (fcn : string) : option (result payload) :=
  if fcn =? "toString" then Some (Ok (PBytes "[object Undefined]"))
  else if existsb (String.eqb fcn) Reference.Object_prototype then Some (Throw TypeError)
  else None.

Definition zed_args : string :=
  Sample.object [("entityRegistrationNumber", quoted "z-17"); ("entityName", quoted "Zed")].

Definition zed : string :=
  Sample.object [("entityRegistrationNumber", quoted "z-17"); ("entityName", quoted "Zed");
                 ("docType", quoted "entity")].

(** A store with two entities and an entry; the second entity was
    registered under a number that begins with [z]. *)
Definition mixed : Ledger.t :=
  {| Ledger.world := [("entity6322", Sample.farm); ("entityz-17", zed);
                      ("entry12341234",
                       Sample.object [("entryId", quoted "12341234");
                                      ("entityRegistrationNumber", quoted "6322");
                                      ("docType", quoted "entry")])];
     Ledger.log := []; Ledger.flag_last := false |}.



End Demo.

(* ================================================================== *)
(** ** Property reads *)
(* ================================================================== *)

Lemma js_get_readable (v : jsval) (k : string) :
  readable v = true -> exists x, js_get v k = Ok x.
Proof.
  destruct v; simpl; try discriminate; intros _; eauto.
  - destruct (k =? "length"); eauto.
    destruct (array_index k) as [i|]; eauto.
    destruct (nth_error (units s) i); eauto.
  - destruct (k =? "length"); eauto.
    destruct (array_index k); eauto.
  - destruct (assoc k fields); eauto.
Qed.

Lemma js_get_unreadable (v : jsval) (k : string) :
  readable v = false -> js_get v k = Throw TypeError.
Proof. destruct v; simpl; intros H; try discriminate H; reflexivity. Qed.

Lemma truthy_readable (v : jsval) : truthy v = true -> readable v = true.
Proof. destruct v; simpl; intros H; try discriminate H; reflexivity. Qed.

Lemma js_get_throws (v : jsval) (k : string) (e : exn) :
  js_get v k = Throw e -> e = TypeError.
Proof.
  destruct v; simpl; intros H; try discriminate H; try (now inversion H).
  - destruct (k =? "length"); [discriminate|].
    destruct (array_index k) as [i|]; [|discriminate].
    destruct (nth_error (units s) i); discriminate.
  - destruct (k =? "length"); [discriminate|].
    destruct (array_index k); discriminate.
  - destruct (assoc k fields); discriminate.
Qed.

Lemma assoc_set_field_other (k k' : string) (x : jsval) fields :
  k <> k' -> assoc k' (set_field k x fields) = assoc k' fields.
Proof.
  intros Hne. induction fields as [|[k0 y] fields IH]; simpl.
  - destruct (String.eqb_spec k k'); [contradiction|reflexivity].
  - destruct (String.eqb_spec k0 k) as [->|Hk0]; simpl.
    + destruct (String.eqb_spec k k'); [contradiction|reflexivity].
    + destruct (k0 =? k'); [reflexivity|exact IH].
Qed.

Lemma assoc_In {A : Type} (k : string) (v : A) (w : list (string * A)) :
  assoc k w = Some v -> In (k, v) w.
Proof.
  induction w as [|[k0 v0] w IH]; simpl; [discriminate|].
  destruct (String.eqb_spec k0 k) as [->|_].
  - intros H. inversion H. now left.
  - intros H. right. now apply IH.
Qed.

Lemma assoc_found {A : Type} (k : string) (w : list (string * A)) :
  In k (map fst w) -> exists v, assoc k w = Some v.
Proof.
  induction w as [|[k0 v0] w IH]; simpl; [contradiction|].
  destruct (String.eqb_spec k0 k) as [->|Hne]; [eauto|].
  intros [H|H]; [contradiction|now apply IH].
Qed.

Lemma nonempty_string (s : string) : negb (s =? "") = true <-> s <> "".
Proof.
  destruct (String.eqb_spec s ""); simpl; split; intros H; congruence.
Qed.

Lemma length_le_0 (s : string) : (String.length s <=? 0)%nat = (s =? "").
Proof. destruct s; reflexivity. Qed.

(* ================================================================== *)
(** ** Conversions *)
(* ================================================================== *)

Lemma js_to_string_array (xs : list jsval) :
  js_to_string (JArr xs) = (texts <- join_texts xs ;; Ok (String.concat "," texts)).
Proof.
  reflexivity.
Qed.

(** A conversion to text throws nothing but a [TypeError]. *)
Lemma js_to_string_throws (v : jsval) (e : exn) :
  js_to_string v = Throw e -> e = TypeError.
Proof.
  revert e.
  apply (jsval_induction (fun v => forall e, js_to_string v = Throw e -> e = TypeError));
    clear v; [intros v|intros xs IH e|intros fields _ e].
  - destruct v as [| | |neg|b|n|s|xs|fields|name]; try exact I; intros e;
      try (cbn [js_to_string]; discriminate).
    destruct b; discriminate.
  - rewrite js_to_string_array.
    assert (J : forall e', join_texts xs = Throw e' -> e' = TypeError).
    { induction IH as [|x xs Hx _ IHxs]; intros e'; cbn [join_texts]; [discriminate|].
      destruct (element_text x) as [text|e0] eqn:E0; cbn [bind].
      - destruct (join_texts xs) as [texts|e1]; cbn [bind]; [discriminate|].
        intros H. inversion H; subst. now apply IHxs.
      - intros H. inversion H; subst.
        destruct x; try discriminate E0; now apply (Hx _ E0). }
    destruct (join_texts xs) as [texts|e1]; cbn [bind]; [discriminate|].
    intros H. inversion H; subst. now apply J.
  - cbn [js_to_string]. destruct (assoc "toString" fields); [|discriminate].
    intros H. now inversion H.
Qed.

Lemma converts_true (v : jsval) :
  converts v = true <-> exists text, js_to_string v = Ok text.
Proof.
  unfold converts. destruct (js_to_string v) as [text|e]; split; eauto.
  - discriminate.
  - intros [text H]. discriminate H.
Qed.

Lemma converts_false (v : jsval) :
  converts v = false <-> js_to_string v = Throw TypeError.
Proof.
  unfold converts. destruct (js_to_string v) as [text|e] eqn:E; split;
    try discriminate; auto.
  intros _. now rewrite (js_to_string_throws _ _ E).
Qed.

Lemma string_plus_throws (s : string) (v : jsval) (e : exn) :
  string_plus s v = Throw e -> e = TypeError.
Proof.
  unfold string_plus. destruct (js_to_string v) as [text|e0] eqn:E; cbn [bind];
    [discriminate|].
  intros H. inversion H; subst. now apply js_to_string_throws in E.
Qed.

Lemma plus_string_throws (v : jsval) (s : string) (e : exn) :
  plus_string v s = Throw e -> e = TypeError.
Proof.
  unfold plus_string. destruct (js_to_string v) as [text|e0] eqn:E; cbn [bind];
    [discriminate|].
  intros H. inversion H; subst. now apply js_to_string_throws in E.
Qed.

Lemma to_primitive_throws (v : jsval) (e : exn) :
  to_primitive v = Throw e -> js_to_string v = Throw e /\ e = TypeError.
Proof.
  destruct v; cbn [to_primitive]; try discriminate;
    destruct (js_to_string _) as [text|e0] eqn:E; cbn [bind]; try discriminate;
    intros H; inversion H; subst; split; auto; now apply js_to_string_throws in E.
Qed.

(** A value made primitive converts to the text of the value itself. *)
Lemma to_primitive_text (v p : jsval) :
  to_primitive v = Ok p -> js_to_string p = js_to_string v.
Proof.
  destruct v; cbn [to_primitive]; try (intros H; now inversion H);
    destruct (js_to_string _) as [text|e0]; cbn [bind]; try discriminate;
    intros H; inversion H; reflexivity.
Qed.

Lemma to_primitive_converts (v : jsval) :
  (exists p, to_primitive v = Ok p) <-> converts v = true.
Proof.
  unfold converts. split.
  - intros [p H]. destruct (js_to_string v) as [text|e] eqn:E; [reflexivity|].
    exfalso.
    destruct v; cbn [to_primitive] in H; try (rewrite E in H; discriminate H);
      try discriminate E.
    destruct b; discriminate E.
  - intros H. destruct (to_primitive v) as [p|e] eqn:E; eauto.
    apply to_primitive_throws in E. destruct E as [E _]. rewrite E in H.
    discriminate H.
Qed.

Lemma js_plus_throws (a b : jsval) (e : exn) :
  js_plus a b = Throw e -> e = TypeError.
Proof.
  unfold js_plus.
  destruct (to_primitive a) as [pa|ea] eqn:Ea; cbn [bind];
    [|intros H; inversion H; subst; now apply to_primitive_throws in Ea].
  destruct (to_primitive b) as [pb|eb] eqn:Eb; cbn [bind];
    [|intros H; inversion H; subst; now apply to_primitive_throws in Eb].
  assert (Hs : forall x, (ta <- js_to_string pa ;; tb <- js_to_string pb ;;
                          Ok (JStr (ta ++ tb))) = Throw x -> x = TypeError).
  { intros x. destruct (js_to_string pa) as [ta|e1] eqn:E1; cbn [bind];
      [|intros H; inversion H; subst; now apply js_to_string_throws in E1].
    destruct (js_to_string pb) as [tb|e2] eqn:E2; cbn [bind]; [discriminate|].
    intros H; inversion H; subst; now apply js_to_string_throws in E2. }
  destruct pa, pb; try discriminate; apply Hs.
Qed.

(** [+] with a string on the left or on the right is the concatenation
    that [string_plus] and [plus_string] write. *)
Lemma js_plus_string_l (s : string) (v : jsval) :
  js_plus (JStr s) v = (text <- string_plus s v ;; Ok (JStr text)).
Proof.
  unfold js_plus, string_plus.
  destruct v as [| | |neg|b|n|s0|xs|fields|name]; cbn [to_primitive];
    try (destruct (js_to_string _) as [text|e]; cbn [bind js_to_string]; reflexivity);
    try reflexivity.
  destruct b; reflexivity.
Qed.

Lemma js_plus_string_r (v : jsval) (s : string) :
  js_plus v (JStr s) = (text <- plus_string v s ;; Ok (JStr text)).
Proof.
  unfold js_plus, plus_string.
  destruct v as [| | |neg|b|n|s0|xs|fields|name]; cbn [to_primitive];
    try (destruct (js_to_string _) as [text|e]; cbn [bind js_to_string]; reflexivity);
    try reflexivity.
  destruct b; reflexivity.
Qed.

(** When [+] returns, both operands convert to text; and it returns the
    concatenation of their texts as soon as one of them is a string, an
    array, an object or a function. *)
Lemma js_plus_converts (a b r : jsval) :
  js_plus a b = Ok r -> converts a = true /\ converts b = true.
Proof.
  unfold js_plus. intros H.
  destruct (to_primitive a) as [pa|ea] eqn:Ea; cbn [bind] in H; [|discriminate].
  destruct (to_primitive b) as [pb|eb] eqn:Eb; cbn [bind] in H; [|discriminate].
  split; apply to_primitive_converts; eauto.
Qed.

(* ================================================================== *)
(** ** What the loops compute *)
(* ================================================================== *)

Section Loops.
Context {RT : JSRuntime}.

Lemma js_read_readable (v : jsval) (k : string) :
  readable v = true -> exists x, js_read v k = Ok x.
Proof.
  intros Hr. unfold js_read. destruct (js_get_readable v k Hr) as [x ->].
  simpl. destruct x; eauto.
Qed.

Lemma js_read_throws (v : jsval) (k : string) (e : exn) :
  js_read v k = Throw e -> e = TypeError.
Proof.
  unfold js_read. destruct (js_get v k) as [x|e'] eqn:E; simpl.
  - destruct x; discriminate.
  - intros H. inversion H; subst. now apply js_get_throws in E.
Qed.

(** On a name the loop enumerates, a call of [hasOwnProperty] that returns
    answers [true]. *)
Lemma hasOwnProperty_enumerated (v : jsval) (key : string) (own : bool) :
  In key (Object_keys v) -> hasOwnProperty v key = Ok own -> own = true.
Proof.
  intros Hin. unfold hasOwnProperty.
  destruct (js_get v "hasOwnProperty") as [m|]; simpl; [|discriminate].
  destruct m; try discriminate. intros H. inversion H.
  apply existsb_exists. exists key. split; [exact Hin|apply String.eqb_refl].
Qed.

Lemma hasOwnProperty_inherited (v : jsval) (key : string) :
  js_get v "hasOwnProperty" = Ok JUndefined ->
  In key (Object_keys v) -> hasOwnProperty v key = Ok true.
Proof.
  intros Hm Hin. unfold hasOwnProperty. rewrite Hm. simpl. f_equal.
  apply existsb_exists. exists key. split; [exact Hin|apply String.eqb_refl].
Qed.

Lemma hasOwnProperty_throws (v : jsval) (key : string) (e : exn) :
  hasOwnProperty v key = Throw e -> e = TypeError.
Proof.
  unfold hasOwnProperty. destruct (js_get v "hasOwnProperty") as [m|e'] eqn:E; simpl.
  - destruct m; intros H; inversion H; reflexivity.
  - intros H. inversion H; subst. now apply js_get_throws in E.
Qed.

(** One turn of the loop, for a name the loop enumerates on a selector
    that inherits [hasOwnProperty]. *)
Lemma for_in_turn jsonRecord jsonRes key keys allResults :
  js_get jsonRecord "hasOwnProperty" = Ok JUndefined ->
  In key (Object_keys jsonRecord) ->
  for_in jsonRecord jsonRes (key :: keys) allResults
  = if field_runs jsonRecord (QueryResult.Record_ jsonRes) key
    then for_in jsonRecord jsonRes keys
           (if field_matches jsonRecord (QueryResult.Record_ jsonRes) key
            then (allResults ++ [jsonRes])%list else allResults)
    else Throw TypeError.
Proof.
  intros Hm Hkey. cbn [for_in]. rewrite (hasOwnProperty_inherited _ _ Hm Hkey).
  cbn [bind]. unfold field_runs, field_matches, converts.
  destruct (js_get jsonRecord key) as [expected|e] eqn:E; cbn [bind];
    [|now rewrite (js_get_throws _ _ _ E)].
  destruct (js_to_string expected) as [text|e] eqn:Et; cbn [bind andb];
    [|now rewrite (js_to_string_throws _ _ Et)].
  destruct (key =? "docType"); cbn [orb negb andb]; [reflexivity|].
  destruct (js_read (QueryResult.Record_ jsonRes) key) as [found|e] eqn:Er; cbn [bind];
    [|now rewrite (js_read_throws _ _ _ Er)].
  destruct (js_to_string found) as [text'|e] eqn:Ef; cbn [bind];
    [|now rewrite (js_to_string_throws _ _ Ef)].
  destruct (truthy found && loose_eq found expected); reflexivity.
Qed.

(** The loop as a whole: it throws a [TypeError] when the turn of one of
    the fields does not run, and otherwise pushes the entry once per field
    the record satisfies. *)
Lemma for_in_spec jsonRecord jsonRes keys :
  js_get jsonRecord "hasOwnProperty" = Ok JUndefined ->
  incl keys (Object_keys jsonRecord) ->
  forall allResults,
    for_in jsonRecord jsonRes keys allResults
    = if forallb (field_runs jsonRecord (QueryResult.Record_ jsonRes)) keys
      then Ok (allResults ++
               repeat jsonRes
                 (List.length
                    (filter (field_matches jsonRecord (QueryResult.Record_ jsonRes))
                       keys)))%list
      else Throw TypeError.
Proof.
  intros Hm. induction keys as [|key keys IH]; intros Hincl all.
  - simpl. now rewrite app_nil_r.
  - assert (Hkey : In key (Object_keys jsonRecord)) by (apply Hincl; now left).
    assert (Hkeys : incl keys (Object_keys jsonRecord))
      by (intros x Hx; apply Hincl; now right).
    rewrite (for_in_turn _ _ _ _ _ Hm Hkey). cbn [forallb filter].
    destruct (field_runs jsonRecord (QueryResult.Record_ jsonRes) key);
      cbn [andb]; [|reflexivity].
    rewrite (IH Hkeys).
    destruct (forallb _ keys); [|reflexivity].
    destruct (field_matches jsonRecord (QueryResult.Record_ jsonRes) key);
      [|reflexivity].
    cbn [List.length repeat]. now rewrite <- app_assoc.
Qed.

(** The loop of [queryByString] throws nothing but a [TypeError] or the
    failure of the iterator. *)
Lemma for_in_throws_TypeError jsonRecord jsonRes keys :
  forall allResults e,
    for_in jsonRecord jsonRes keys allResults = Throw e -> e = TypeError.
Proof.
  induction keys as [|key keys IH]; simpl; intros all e H; [discriminate|].
  destruct (hasOwnProperty jsonRecord key) as [own|e0] eqn:E0; simpl in H;
    [|inversion H; subst; now apply hasOwnProperty_throws in E0].
  destruct own; [|now apply IH in H].
  destruct (js_get jsonRecord key) as [expected|e'] eqn:E1; simpl in H;
    [|inversion H; subst; now apply js_get_throws in E1].
  destruct (js_to_string expected) as [text|e'] eqn:E3; simpl in H;
    [|inversion H; subst; now apply js_to_string_throws in E3].
  destruct (key =? "docType"); [now apply IH in H|].
  destruct (js_read (QueryResult.Record_ jsonRes) key) as [found|e''] eqn:E2;
    simpl in H; [|inversion H; subst; now apply js_read_throws in E2].
  destruct (js_to_string found) as [text'|e'] eqn:E4; simpl in H;
    [|inversion H; subst; now apply js_to_string_throws in E4].
  destruct (negb (truthy found && loose_eq found expected)); now apply IH in H.
Qed.

(** A selector that has a field called [hasOwnProperty] makes the first
    turn of the loop throw. *)
Lemma for_in_hidden jsonRecord jsonRes key keys allResults :
  js_get jsonRecord "hasOwnProperty" <> Ok JUndefined ->
  for_in jsonRecord jsonRes (key :: keys) allResults = Throw TypeError.
Proof.
  intros Hm. cbn [for_in]. unfold hasOwnProperty.
  destruct (js_get jsonRecord "hasOwnProperty") as [m|e] eqn:E; cbn [bind].
  - destruct m; try reflexivity. contradiction.
  - now rewrite (js_get_throws _ _ _ E).
Qed.

Lemma for_in_pushes jsonRecord jsonRes keys :
  incl keys (Object_keys jsonRecord) ->
  forall allResults allResults',
    for_in jsonRecord jsonRes keys allResults = Ok allResults' ->
    allResults' =
      (allResults ++
       repeat jsonRes
         (List.length (filter (field_matches jsonRecord (QueryResult.Record_ jsonRes)) keys)))%list.
Proof.
  intros Hincl all all' H. destruct keys as [|key keys].
  - inversion H. simpl. now rewrite app_nil_r.
  - assert (Hm : js_get jsonRecord "hasOwnProperty" = Ok JUndefined).
    { destruct (js_get jsonRecord "hasOwnProperty") as [m|e] eqn:E.
      - assert (Hx : m = JUndefined \/ m <> JUndefined)
          by (destruct m; auto; right; discriminate).
        destruct Hx as [-> | Hx]; [reflexivity|].
        rewrite for_in_hidden in H; [discriminate|]. rewrite E. congruence.
      - rewrite for_in_hidden in H; [discriminate|]. rewrite E. discriminate. }
    rewrite (for_in_spec _ _ _ Hm Hincl) in H.
    destruct (forallb _ (key :: keys)); [|discriminate]. now inversion H.
Qed.

Lemma for_in_returns jsonRecord jsonRes keys :
  js_get jsonRecord "hasOwnProperty" = Ok JUndefined ->
  incl keys (Object_keys jsonRecord) ->
  forallb (field_runs jsonRecord (QueryResult.Record_ jsonRes)) keys = true ->
  forall allResults, exists allResults',
    for_in jsonRecord jsonRes keys allResults = Ok allResults'.
Proof.
  intros Hm Hincl Hr all. rewrite (for_in_spec _ _ _ Hm Hincl), Hr. eauto.
Qed.

Lemma scan_body_pushes jsonQueryString jsonRecord kv allResults :
  js_get jsonQueryString "selector" = Ok jsonRecord ->
  forall d allResults',
    (scan_body jsonQueryString {| IterResult.value := Some kv; IterResult.done := d |}
       allResults = Continue allResults' \/
     scan_body jsonQueryString {| IterResult.value := Some kv; IterResult.done := d |}
       allResults = Fallthrough allResults') ->
    allResults' =
      (allResults ++ if nonempty kv then repeat (entry_of kv) (copies jsonRecord kv) else [])%list.
Proof.
  intros Hsel d all' H. unfold scan_body, nonempty, copies in *.
  cbn [IterResult.value truthy] in H. rewrite Hsel in H.
  destruct (negb (KV.value kv =? "")).
  - fold (entry_of kv) in H.
    destruct (List.length (Object_keys jsonRecord) =? 1)%nat.
    + destruct H as [H|H]; inversion H. reflexivity.
    + destruct (for_in jsonRecord (entry_of kv) (Object_keys jsonRecord) allResults)
        as [a|e] eqn:E; destruct H as [H|H]; inversion H; subst.
      apply for_in_pushes in E; [exact E|apply incl_refl].
  - destruct H as [H|H]; inversion H. now rewrite app_nil_r.
Qed.

Lemma scan_body_returns jsonQueryString jsonRecord kv allResults d :
  js_get jsonQueryString "selector" = Ok jsonRecord ->
  (List.length (Object_keys jsonRecord) = 1 \/
   nonempty kv = false \/
   (js_get jsonRecord "hasOwnProperty" = Ok JUndefined
    /\ loop_runs jsonRecord (decode (KV.value kv)) = true)) ->
  forall e,
    scan_body jsonQueryString {| IterResult.value := Some kv; IterResult.done := d |}
      allResults <> Abort e.
Proof.
  intros Hsel H e. unfold scan_body, nonempty in *.
  cbn [IterResult.value truthy]. rewrite Hsel.
  destruct (negb (KV.value kv =? "")); [|discriminate].
  destruct (List.length (Object_keys jsonRecord) =? 1)%nat eqn:E1; [discriminate|].
  destruct H as [H|[H|[Hm H]]].
  - rewrite H in E1. discriminate.
  - discriminate.
  - destruct (for_in_returns jsonRecord
                {| QueryResult.Key := KV.key kv; QueryResult.Record_ := decode (KV.value kv) |}
                (Object_keys jsonRecord) Hm (incl_refl _) H allResults) as [a ->].
    discriminate.
Qed.

Lemma collect_spec jsonQueryString jsonRecord kvs :
  js_get jsonQueryString "selector" = Ok jsonRecord ->
  forall allResults allResults',
    collect jsonQueryString kvs allResults = Ok allResults' ->
    allResults' = (allResults ++ selected jsonRecord kvs)%list.
Proof.
  intros Hsel. unfold selected.
  induction kvs as [|kv kvs IH]; simpl; intros all all' H.
  - inversion H. now rewrite app_nil_r.
  - destruct (scan_body _ _ all) as [a|a|e] eqn:E; try discriminate H;
      apply IH in H; subst all';
      rewrite (scan_body_pushes _ _ _ _ Hsel _ a) by (rewrite E; auto);
      rewrite <- app_assoc; destruct (nonempty kv); reflexivity.
Qed.

Lemma collect_returns jsonQueryString jsonRecord kvs :
  js_get jsonQueryString "selector" = Ok jsonRecord ->
  (List.length (Object_keys jsonRecord) = 1 \/
   (js_get jsonRecord "hasOwnProperty" = Ok JUndefined
    /\ Forall (fun kv => nonempty kv = true ->
                         loop_runs jsonRecord (decode (KV.value kv)) = true)
         kvs)) ->
  forall allResults,
    collect jsonQueryString kvs allResults = Ok (allResults ++ selected jsonRecord kvs)%list.
Proof.
  intros Hsel H all.
  assert (E : exists all', collect jsonQueryString kvs all = Ok all').
  { revert all. induction kvs as [|kv kvs IH]; simpl; intros all; eauto.
    assert (Hkv : List.length (Object_keys jsonRecord) = 1 \/
                  nonempty kv = false \/
                  (js_get jsonRecord "hasOwnProperty" = Ok JUndefined
                   /\ loop_runs jsonRecord (decode (KV.value kv)) = true)).
    { destruct H as [H|[Hm H]]; [auto|]. inversion H; subst.
      destruct (nonempty kv); auto. }
    assert (Hkvs : List.length (Object_keys jsonRecord) = 1 \/
                   (js_get jsonRecord "hasOwnProperty" = Ok JUndefined
                    /\ Forall (fun kv => nonempty kv = true ->
                                         loop_runs jsonRecord (decode (KV.value kv)) = true)
                         kvs)).
    { destruct H as [H|[Hm H]]; [auto|]. inversion H; auto. }
    pose proof (scan_body_returns jsonQueryString jsonRecord kv all false Hsel Hkv) as Hb.
    destruct (scan_body _ _ all) as [a|a|e]; auto.
    exfalso. now apply (Hb e). }
  destruct E as [all' E]. rewrite E. f_equal.
  now apply (collect_spec _ _ _ Hsel) in E.
Qed.

Lemma scan_deliver jsonQueryString flag_last kvs :
  forall closed allResults,
    fst (scan jsonQueryString (deliver flag_last kvs) closed allResults)
    = collect jsonQueryString kvs allResults.
Proof.
  induction kvs as [|kv kvs IH]; intros c all; [reflexivity|].
  cbn [deliver scan collect].
  change (scan_body jsonQueryString
            {| IterResult.value := Some kv;
               IterResult.done := flag_last && match kvs with [] => true | _ :: _ => false end |}
            all)
    with (scan_body jsonQueryString
            {| IterResult.value := Some kv; IterResult.done := false |} all).
  destruct (scan_body _ _ all) as [a|a|e]; [apply IH| |reflexivity].
  cbn [IterResult.done].
  destruct kvs as [|kv' kvs]; [|rewrite andb_false_r; apply IH].
  destruct flag_last; reflexivity.
Qed.

(** One turn of the loops, written with [next()] and [close()]: the
    recursion on the pending outcomes is the [while (true)] of the source. *)
Lemma scan_next jsonQueryString (iterator : Iterator.t KV.t) allResults :
  scan jsonQueryString (Iterator.pending iterator) (Iterator.closed iterator) allResults
  = match Iterator.next iterator with
    | (Reject reason, iterator') => (Throw (StubFailure reason), iterator')
    | (Resolve res, iterator') =>
        match scan_body jsonQueryString res allResults with
        | Abort e => (Throw e, iterator')
        | Continue allResults' =>
            scan jsonQueryString (Iterator.pending iterator')
              (Iterator.closed iterator') allResults'
        | Fallthrough allResults' =>
            if IterResult.done res
            then (Ok allResults', Iterator.close iterator')
            else scan jsonQueryString (Iterator.pending iterator')
                   (Iterator.closed iterator') allResults'
        end
    end.
Proof.
  destruct iterator as [pending closed]. unfold Iterator.next. simpl.
  destruct pending as [|[res|reason] rest]; reflexivity.
Qed.

Lemma replay_next (iterator : Iterator.t KeyModification.t) history :
  replay (Iterator.pending iterator) (Iterator.closed iterator) history
  = match Iterator.next iterator with
    | (Reject reason, iterator') => (Throw (StubFailure reason), iterator')
    | (Resolve historyRecord, iterator') =>
        if IterResult.done historyRecord
        then (Ok (history_body historyRecord history), Iterator.close iterator')
        else replay (Iterator.pending iterator') (Iterator.closed iterator')
               (history_body historyRecord history)
    end.
Proof.
  destruct iterator as [pending closed]. unfold Iterator.next. simpl.
  destruct pending as [|[res|reason] rest]; reflexivity.
Qed.

(** The cursor is closed by the call exactly when the call returns. *)
Lemma scan_closed jsonQueryString pending :
  forall closed allResults,
    Iterator.closed (snd (scan jsonQueryString pending closed allResults))
    = match fst (scan jsonQueryString pending closed allResults) with
      | Ok _ => S closed
      | Throw _ => closed
      end.
Proof.
  induction pending as [|[res|reason] rest IH]; intros c all; cbn [scan];
    try reflexivity.
  destruct (scan_body _ res all) as [a|a|e]; [apply IH| |reflexivity].
  destruct (IterResult.done res); [reflexivity|apply IH].
Qed.

Lemma scan_throws jsonQueryString pending :
  forall closed allResults e,
    fst (scan jsonQueryString pending closed allResults) = Throw e ->
    e = TypeError \/ exists reason, e = StubFailure reason.
Proof.
  induction pending as [|[res|reason] rest IH]; intros c all e; cbn [scan].
  - discriminate.
  - destruct (scan_body _ res all) as [a|a|e'] eqn:E.
    + apply IH.
    + destruct (IterResult.done res); [discriminate|apply IH].
    + simpl. intros H. inversion H; subst. left.
      unfold scan_body in E.
      destruct (IterResult.value res) as [kv|]; [|discriminate].
      destruct (truthy (JStr (KV.value kv))); [|discriminate].
      destruct (js_get jsonQueryString "selector") as [sel|e1] eqn:E1.
      * destruct (List.length (Object_keys sel) =? 1)%nat; [discriminate|].
        destruct (for_in _ _ _ _) as [a|e2] eqn:E2; [discriminate|].
        inversion E; subst. now apply for_in_throws_TypeError in E2.
      * inversion E; subst. now apply js_get_throws in E1.
  - simpl. intros H. inversion H. right. eauto.
Qed.

Lemma history_body_spec (res : IterResult.t KeyModification.t) history :
  history_body res history =
  match IterResult.value res with
  | Some km => if recorded km then (history ++ [history_of km])%list else history
  | None => history
  end.
Proof.
  unfold history_body, recorded, history_of.
  destruct (IterResult.value res) as [km|]; [|reflexivity].
  simpl. destruct (KeyModification.value km =? ""); simpl; [reflexivity|].
  destruct (KeyModification.is_delete km); reflexivity.
Qed.

Lemma replay_deliver flag_last changes :
  forall closed history,
    fst (replay (deliver flag_last changes) closed history)
    = Ok (history ++ map history_of (filter recorded changes))%list.
Proof.
  induction changes as [|km kms IH]; intros c h; cbn [deliver replay].
  - simpl. now rewrite app_nil_r.
  - rewrite history_body_spec. cbn [IterResult.value IterResult.done filter].
    set (h' := if recorded km then (h ++ [history_of km])%list else h).
    assert (E : (h' ++ map history_of (filter recorded kms)
                 = h ++ map history_of (if recorded km then km :: filter recorded kms
                                        else filter recorded kms))%list).
    { subst h'. destruct (recorded km); [|reflexivity].
      simpl. now rewrite <- app_assoc. }
    rewrite <- E. clear E.
    destruct kms as [|km' kms].
    + destruct flag_last; simpl; now rewrite app_nil_r.
    + rewrite andb_false_r. apply IH.
Qed.

Lemma replay_closed pending :
  forall closed history,
    Iterator.closed (snd (replay pending closed history))
    = match fst (replay pending closed history) with
      | Ok _ => S closed
      | Throw _ => closed
      end.
Proof.
  induction pending as [|[res|reason] rest IH]; intros c h; cbn [replay];
    try reflexivity.
  destruct (IterResult.done res); [reflexivity|apply IH].
Qed.

End Loops.

(* ================================================================== *)
(** ** Calls unfolded *)
(* ================================================================== *)

Section Calls.
Context {RT : JSRuntime} {S : Type} {ST : Stub S}.

Lemma queryByKey_spec (stub : S) (key : string) :
  queryByKey stub key =
  match getState stub key with
  | Some bytes => if bytes =? "" then Throw (KeyDoesNotExist key) else Ok bytes
  | None => Throw (KeyDoesNotExist key)
  end.
Proof.
  unfold queryByKey. destruct (getState stub key) as [bytes|]; [|reflexivity].
  now rewrite length_le_0.
Qed.

Lemma range_of_selector queryString jsonQueryString fields docType :
  js_get jsonQueryString "selector" = Ok (JObj fields) ->
  assoc "docType" fields = Some docType ->
  truthy docType = true ->
  range_of queryString jsonQueryString
  = (text <- js_to_string docType ;; Ok (text ++ "0", text ++ "z")).
Proof.
  intros Hs Hd Ht. unfold range_of, plus_string. rewrite Hs. simpl. rewrite Hd. simpl.
  rewrite Ht. destruct (js_to_string docType); reflexivity.
Qed.

Lemma queryByString_opens (stub : S) queryString jsonQueryString startKey endKey :
  JSON_parse queryString = Some jsonQueryString ->
  range_of queryString jsonQueryString = Ok (startKey, endKey) ->
  queryByString stub queryString =
  (fst (scan jsonQueryString (Iterator.pending (getStateByRange stub startKey endKey))
          (Iterator.closed (getStateByRange stub startKey endKey)) []),
   Some (snd (scan jsonQueryString (Iterator.pending (getStateByRange stub startKey endKey))
                (Iterator.closed (getStateByRange stub startKey endKey)) []))).
Proof.
  intros Hp Hr. unfold queryByString, parse. rewrite Hp, Hr.
  destruct (scan _ _ _ _); reflexivity.
Qed.

Lemma queryByString_fails_early (stub : S) queryString jsonQueryString e :
  JSON_parse queryString = Some jsonQueryString ->
  range_of queryString jsonQueryString = Throw e ->
  queryByString stub queryString = (Throw e, None).
Proof.
  intros Hp Hr. unfold queryByString, parse. now rewrite Hp, Hr.
Qed.

Lemma history_key_spec args json key docType :
  JSON_parse args = Some json ->
  js_get json "key" = Ok key ->
  js_get json "docType" = Ok docType ->
  history_key args = (_ <- js_to_string key ;; js_plus docType key).
Proof.
  intros Hp Hk Hd. unfold history_key, parse, string_plus. rewrite Hp. cbn [bind].
  rewrite Hk. cbn [bind]. rewrite Hd. cbn [bind].
  destruct (js_to_string key); reflexivity.
Qed.

(** With the arguments read, the history key is [docType + key] whenever
    that sum has a value: the conversion of line 361 throws only where the
    sum does. *)
Lemma history_key_sum args json key docType historyKey :
  JSON_parse args = Some json ->
  js_get json "key" = Ok key ->
  js_get json "docType" = Ok docType ->
  js_plus docType key = Ok historyKey ->
  history_key args = Ok historyKey.
Proof.
  intros Hp Hk Hd Hplus. rewrite (history_key_spec _ _ _ _ Hp Hk Hd).
  destruct (js_plus_converts _ _ _ Hplus) as [_ Hc].
  apply converts_true in Hc. destruct Hc as [text ->]. exact Hplus.
Qed.

Lemma history_key_read args historyKey :
  history_key args = Ok historyKey ->
  exists json key docType,
    JSON_parse args = Some json
    /\ js_get json "key" = Ok key
    /\ js_get json "docType" = Ok docType
    /\ js_plus docType key = Ok historyKey.
Proof.
  unfold history_key, parse, string_plus.
  destruct (JSON_parse args) as [json|]; cbn [bind]; [|discriminate].
  destruct (js_get json "key") as [key|] eqn:Ek; cbn [bind]; [|discriminate].
  destruct (js_get json "docType") as [docType|] eqn:Ed; cbn [bind]; [|discriminate].
  destruct (js_to_string key); cbn [bind]; [|discriminate].
  intros H. exists json, key, docType. repeat split; assumption.
Qed.

Lemma history_key_throws args e :
  history_key args = Throw e -> e = SyntaxError \/ e = TypeError.
Proof.
  unfold history_key, parse, string_plus.
  destruct (JSON_parse args) as [json|]; cbn [bind];
    [|intros H; inversion H; auto].
  destruct (js_get json "key") as [key|e1] eqn:E1; cbn [bind];
    [|intros H; inversion H; subst; right; now apply js_get_throws in E1].
  destruct (js_get json "docType") as [docType|e2] eqn:E2; cbn [bind];
    [|intros H; inversion H; subst; right; now apply js_get_throws in E2].
  destruct (js_to_string key) as [text|e3] eqn:E3; cbn [bind];
    [|intros H; inversion H; subst; right; now apply js_to_string_throws in E3].
  intros H. right. now apply js_plus_throws in H.
Qed.

Lemma queryHistoryForKey_opens (stub : S) args historyKey :
  history_key args = Ok historyKey ->
  queryHistoryForKey stub args =
  (fst (replay (Iterator.pending (getHistoryForKey stub historyKey))
          (Iterator.closed (getHistoryForKey stub historyKey)) []),
   Some (snd (replay (Iterator.pending (getHistoryForKey stub historyKey))
                (Iterator.closed (getHistoryForKey stub historyKey)) []))).
Proof.
  intros Hk. unfold queryHistoryForKey. rewrite Hk.
  destruct (replay _ _ _); reflexivity.
Qed.

End Calls.

Lemma range_of_spec queryString jsonQueryString :
  readable jsonQueryString = true ->
  range_of queryString jsonQueryString =
  match docType_of jsonQueryString with
  | Some docType =>
      if truthy docType
      then text <- js_to_string docType ;; Ok (text ++ "0", text ++ "z")
      else Throw (MissingDocType queryString)
  | None => Throw (MissingDocType queryString)
  end.
Proof.
  intros Hr. unfold range_of, docType_of, plus_string.
  destruct jsonQueryString as [| | |neg|b|n|s|xs|fields|name]; try discriminate Hr;
    try reflexivity.
  simpl. destruct (assoc "selector" fields) as [selector|]; [|reflexivity].
  simpl. destruct selector as [| | |neg|b|n|s|xs|sel|name]; try reflexivity.
  - destruct b; reflexivity.
  - destruct (truthy (JNum n)); reflexivity.
  - destruct (truthy (JStr s)); reflexivity.
  - simpl. destruct (assoc "docType" sel) as [d|]; [|reflexivity].
    cbn [bind]. destruct (truthy d); [|reflexivity].
    destruct (js_to_string d); reflexivity.
Qed.

(* ================================================================== *)
(** ** Record creation, step by step *)
(* ================================================================== *)

Lemma assoc_set_field_same (k : string) (x : jsval) fields :
  assoc k (set_field k x fields) = Some x.
Proof.
  induction fields as [|[k0 y] fields IH]; simpl.
  - now rewrite String.eqb_refl.
  - destruct (String.eqb_spec k0 k) as [->|Hne]; simpl.
    + now rewrite String.eqb_refl.
    + destruct (String.eqb_spec k0 k); [contradiction|exact IH].
Qed.

Lemma empty_string_falsy (s : string) : truthy (JStr s) = false <-> s = "".
Proof.
  simpl. destruct (String.eqb_spec s ""); simpl; split; intros H; congruence.
Qed.

(** A write of one property leaves the reads of the others as they were. *)
Lemma js_get_after_set (json json' : jsval) (k k' : string) (x : jsval) :
  js_set json k x = Ok json' -> k <> k' -> js_get json' k' = js_get json k'.
Proof.
  intros Hset Hne.
  destruct json; cbn [js_set] in Hset; try discriminate Hset; inversion Hset;
    try reflexivity.
  cbn [js_get]. now rewrite assoc_set_field_other.
Qed.

Section Creation.
Context {RT : JSRuntime} {S : Type} {ST : Stub S}.

Lemma createEntity_steps (stub : S) args json reg number json' :
  JSON_parse args = Some json ->
  js_get json "entityRegistrationNumber" = Ok reg ->
  js_to_string reg = Ok number ->
  js_set json "docType" (JStr "entity") = Ok json' ->
  createEntity stub args =
  match getState stub ("entity" ++ number) with
  | None => (Throw TypeError, stub)
  | Some entityQuery =>
      if truthy (JStr entityQuery)
      then (Throw (Error ("##### createEntity - This Entity already exists: "
                          ++ number)), stub)
      else (Ok tt, putState stub ("entity" ++ number) (JSON_stringify json'))
  end.
Proof.
  intros Hp Hreg Hn Hset. unfold createEntity, parse, string_plus.
  rewrite Hp. cbn [bind]. rewrite Hreg. cbn [bind]. rewrite Hn. cbn [bind].
  rewrite Hset. cbn [bind].
  unfold EntityAlreadyExists, thrown. now rewrite Hn.
Qed.

Lemma createEntity_object (stub : S) args fields reg number :
  JSON_parse args = Some (JObj fields) ->
  js_get (JObj fields) "entityRegistrationNumber" = Ok reg ->
  js_to_string reg = Ok number ->
  createEntity stub args =
  match getState stub ("entity" ++ number) with
  | None => (Throw TypeError, stub)
  | Some entityQuery =>
      if truthy (JStr entityQuery)
      then (Throw (EntityAlreadyExists reg), stub)
      else (Ok tt,
            putState stub ("entity" ++ number)
              (JSON_stringify (JObj (set_field "docType" (JStr "entity") fields))))
  end.
Proof.
  intros Hp Hreg Hn.
  rewrite (createEntity_steps stub _ _ _ _ _ Hp Hreg Hn eq_refl).
  unfold EntityAlreadyExists, thrown. now rewrite Hn.
Qed.

Lemma createEntry_steps (stub : S) args json entryId key json' reg number :
  JSON_parse args = Some json ->
  js_get json "entryId" = Ok entryId ->
  js_to_string entryId = Ok key ->
  js_set json "docType" (JStr "entry") = Ok json' ->
  js_get json "entityRegistrationNumber" = Ok reg ->
  js_to_string reg = Ok number ->
  createEntry stub args =
  match getState stub ("entity" ++ number) with
  | None => (Throw TypeError, stub)
  | Some entityQuery =>
      if negb (truthy (JStr entityQuery))
      then (Throw (Error ("##### createEntry - Cannot create entry as the Entity "
                          ++ "does not exist: " ++ number)), stub)
      else
        match getState stub ("entry" ++ key) with
        | None => (Throw TypeError, stub)
        | Some entryQuery =>
            if truthy (JStr entryQuery)
            then (Throw (Error ("##### createEntry - This Entry already exists: "
                                ++ key)), stub)
            else (Ok tt, putState stub ("entry" ++ key) (JSON_stringify json'))
        end
  end.
Proof.
  intros Hp Hid Hk Hset Hreg Hn. unfold createEntry, parse, string_plus.
  rewrite Hp. cbn [bind]. rewrite Hid. cbn [bind]. rewrite Hk. cbn [bind].
  rewrite Hset. cbn [bind].
  rewrite (js_get_after_set _ _ _ "entityRegistrationNumber" _ Hset) by discriminate.
  rewrite Hreg. cbn [bind]. rewrite Hn. cbn [bind].
  unfold EntityDoesNotExist, EntryAlreadyExists, thrown. now rewrite Hn, Hk.
Qed.

Lemma createEntry_object (stub : S) args fields entryId key reg number :
  JSON_parse args = Some (JObj fields) ->
  js_get (JObj fields) "entryId" = Ok entryId ->
  js_to_string entryId = Ok key ->
  js_get (JObj fields) "entityRegistrationNumber" = Ok reg ->
  js_to_string reg = Ok number ->
  createEntry stub args =
  match getState stub ("entity" ++ number) with
  | None => (Throw TypeError, stub)
  | Some entityQuery =>
      if negb (truthy (JStr entityQuery))
      then (Throw (EntityDoesNotExist reg), stub)
      else
        match getState stub ("entry" ++ key) with
        | None => (Throw TypeError, stub)
        | Some entryQuery =>
            if truthy (JStr entryQuery)
            then (Throw (EntryAlreadyExists entryId), stub)
            else (Ok tt,
                  putState stub ("entry" ++ key)
                    (JSON_stringify (JObj (set_field "docType" (JStr "entry") fields))))
        end
  end.
Proof.
  intros Hp Hid Hk Hreg Hn.
  rewrite (createEntry_steps stub _ _ _ _ _ _ _ Hp Hid Hk eq_refl Hreg Hn).
  unfold EntityDoesNotExist, EntryAlreadyExists, thrown. now rewrite Hn, Hk.
Qed.

(** What a creation handler does to the ledger: nothing, or one [putState]
    under a key of its own prefix, at a place that held no value. *)
Lemma createEntity_writes (stub : S) args :
  snd (createEntity stub args) = stub
  \/ fst (createEntity stub args) = Ok tt
     /\ exists reg text,
          getState stub ("entity" ++ reg) = Some ""
          /\ snd (createEntity stub args) = putState stub ("entity" ++ reg) text.
Proof.
  unfold createEntity.
  destruct (json <- parse args;; _) as [[[json reg] key]|e] eqn:Esteps; [|now left].
  assert (Hkey : exists number, key = "entity" ++ number).
  { destruct (parse args) as [j|]; cbn [bind] in Esteps; [|discriminate].
    destruct (js_get j _) as [r|]; cbn [bind] in Esteps; [|discriminate].
    unfold string_plus in Esteps.
    destruct (js_to_string r) as [number|]; cbn [bind] in Esteps; [|discriminate].
    destruct (js_set j _ _); cbn [bind] in Esteps; [|discriminate].
    inversion Esteps; subst. eexists; reflexivity. }
  destruct Hkey as [number ->].
  destruct (getState stub _) as [q|] eqn:E; [|now left].
  destruct (truthy (JStr q)) eqn:Eq; [now left|].
  right. split; [reflexivity|]. apply empty_string_falsy in Eq. subst q.
  exists number. eexists. split; [exact E|reflexivity].
Qed.

Lemma createEntry_writes (stub : S) args :
  snd (createEntry stub args) = stub
  \/ fst (createEntry stub args) = Ok tt
     /\ exists entryId text,
          getState stub ("entry" ++ entryId) = Some ""
          /\ snd (createEntry stub args) = putState stub ("entry" ++ entryId) text.
Proof.
  unfold createEntry.
  destruct (json <- parse args;; _) as [[[[[json entryId] key] reg] entityKey]|e]
    eqn:Esteps; [|now left].
  assert (Hkey : exists text, key = "entry" ++ text).
  { destruct (parse args) as [j|]; cbn [bind] in Esteps; [|discriminate].
    destruct (js_get j _) as [r|]; cbn [bind] in Esteps; [|discriminate].
    unfold string_plus in Esteps.
    destruct (js_to_string r) as [text|]; cbn [bind] in Esteps; [|discriminate].
    destruct (js_set j _ _) as [j'|]; cbn [bind] in Esteps; [|discriminate].
    destruct (js_get j' _) as [r'|]; cbn [bind] in Esteps; [|discriminate].
    destruct (js_to_string r') as [number|]; cbn [bind] in Esteps; [|discriminate].
    inversion Esteps; subst. eexists; reflexivity. }
  destruct Hkey as [text ->].
  destruct (getState stub entityKey) as [q|]; [|now left].
  destruct (negb (truthy (JStr q))); [now left|].
  destruct (getState stub ("entry" ++ _)) as [q'|] eqn:E; [|now left].
  destruct (truthy (JStr q')) eqn:Eq; [now left|].
  right. split; [reflexivity|]. apply empty_string_falsy in Eq. subst q'.
  exists text. eexists. split; [exact E|reflexivity].
Qed.

(** A creation that fails has written nothing. *)
Lemma createEntity_fails_clean (stub : S) args e :
  fst (createEntity stub args) = Throw e -> snd (createEntity stub args) = stub.
Proof.
  intros H. destruct (createEntity_writes stub args) as [Hs|[Hok _]]; [exact Hs|].
  rewrite Hok in H. discriminate H.
Qed.

Lemma createEntry_fails_clean (stub : S) args e :
  fst (createEntry stub args) = Throw e -> snd (createEntry stub args) = stub.
Proof.
  intros H. destruct (createEntry_writes stub args) as [Hs|[Hok _]]; [exact Hs|].
  rewrite Hok in H. discriminate H.
Qed.

End Creation.

Lemma ledger_getState (l : Ledger.t) (k : string) :
  getState l k = Some match assoc k (Ledger.world l) with Some v => v | None => "" end.
Proof. cbn [getState Ledger.stub]. destruct (assoc k (Ledger.world l)); reflexivity. Qed.

Lemma ledger_putState_world (l : Ledger.t) (k v : string) :
  Ledger.world (putState l k v) = Ledger.insert k v (Ledger.world l).
Proof. reflexivity. Qed.

Lemma vacant_slot (l : Ledger.t) (k : string) :
  getState l k = Some "" <->
  assoc k (Ledger.world l) = None \/ assoc k (Ledger.world l) = Some "".
Proof.
  rewrite ledger_getState. destruct (assoc k (Ledger.world l)) as [v|]; split;
    intros H; auto.
  destruct H as [H|H]; [discriminate|]. inversion H. reflexivity.
Qed.

(* ================================================================== *)
(** ** Point lookup and record creation *)
(* ================================================================== *)

(** C9.  The point lookup [queryByKey] fails with the not-found error
    exactly when the store has no value for the key or an empty one, and for
    a key with a non-empty value it returns the stored bytes as they are. *)
Theorem queryByKey_not_found_iff (l : Ledger.t) (key : string) :
  (queryByKey l key = Throw (KeyDoesNotExist key)
   <-> assoc key (Ledger.world l) = None \/ assoc key (Ledger.world l) = Some "")
  /\ (forall bytes,
        assoc key (Ledger.world l) = Some bytes -> bytes <> "" ->
        queryByKey l key = Ok bytes).
Proof.
  rewrite queryByKey_spec. cbn [getState Ledger.stub].
  destruct (assoc key (Ledger.world l)) as [v|] eqn:E.
  - destruct (String.eqb_spec v "") as [->|Hv]; split.
    + split; auto.
    + intros bytes Hb Hne. congruence.
    + split; [discriminate|]. intros [H|H]; congruence.
    + intros bytes Hb _. congruence.
  - split; [split; auto|]. discriminate.
Qed.

Lemma queryByKey_not_found_witness :
  queryByKey Sample.entities "entity999" = Throw (KeyDoesNotExist "entity999")
  /\ queryByKey Sample.entities "entity001" = Ok Sample.alpha.
Proof.
  split.
  - apply (proj1 (queryByKey_not_found_iff Sample.entities "entity999")).
    left. reflexivity.
  - apply (proj2 (queryByKey_not_found_iff Sample.entities "entity001")).
    + reflexivity.
    + discriminate.
Defined.

(** An entity is created once, read back by its registration number, and
    an entry that names it is accepted. *)
Example entity_created_and_read :
  createEntity (RT := Reference.runtime) Sample.nothing Sample.farm_args
  = (Ok tt, {| Ledger.world := [("entity6322", Sample.farm)];
               Ledger.log := []; Ledger.flag_last := true |})
  /\ queryEntity (RT := Reference.runtime)
       (snd (createEntity (RT := Reference.runtime) Sample.nothing Sample.farm_args))
       Sample.farm_args
     = Ok Sample.farm
  /\ fst (createEntity (RT := Reference.runtime)
            (snd (createEntity (RT := Reference.runtime) Sample.nothing Sample.farm_args))
            Sample.farm_args)
     = Throw (EntityAlreadyExists (JStr "6322"))
  /\ fst (createEntry (RT := Reference.runtime)
            (snd (createEntity (RT := Reference.runtime) Sample.nothing Sample.farm_args))
            (Sample.entry_args "6322"))
     = Ok tt.
Proof. repeat split; reflexivity. Qed.

(** C8.  A [createEntry] call whose [entityRegistrationNumber] names no
    entity of the store fails with the error "Cannot create entry as the
    Entity does not exist" and leaves the store as it was.  The call gets to
    that test when its arguments parse to an object or an array and its
    [entryId] and [entityRegistrationNumber] convert to text; and whatever
    makes a [createEntry] call fail, the store is left as it was. *)
Theorem createEntry_without_entity {RT : JSRuntime} (l : Ledger.t) (args : string) :
  (forall json json' entryId key entityRegistrationNumber number,
     JSON_parse args = Some json ->
     js_set json "docType" (JStr "entry") = Ok json' ->
     js_get json "entryId" = Ok entryId ->
     js_to_string entryId = Ok key ->
     js_get json "entityRegistrationNumber" = Ok entityRegistrationNumber ->
     js_to_string entityRegistrationNumber = Ok number ->
     (assoc ("entity" ++ number) (Ledger.world l) = None \/
      assoc ("entity" ++ number) (Ledger.world l) = Some "") ->
     createEntry l args
     = (Throw (Error ("##### createEntry - Cannot create entry as the Entity "
                      ++ "does not exist: " ++ number)), l))
  /\ (forall e, fst (createEntry l args) = Throw e -> snd (createEntry l args) = l).
Proof.
  split.
  - intros json json' entryId key reg number Hp Hset Hid Hk Hreg Hn Habsent.
    rewrite (createEntry_steps l _ _ _ _ _ _ _ Hp Hid Hk Hset Hreg Hn).
    apply vacant_slot in Habsent. rewrite Habsent. reflexivity.
  - intros e. apply createEntry_fails_clean.
Qed.

Lemma createEntry_without_entity_witness :
  createEntry (RT := Reference.runtime) Sample.entities (Sample.entry_args "6322")
  = (Throw (Error ("##### createEntry - Cannot create entry as the Entity "
                   ++ "does not exist: 6322")), Sample.entities).
Proof.
  apply (proj1 (createEntry_without_entity (RT := Reference.runtime) Sample.entities
                  (Sample.entry_args "6322"))
           (JObj [("entryId", JStr "12341234"); ("entityRegistrationNumber", JStr "6322")])
           (JObj [("entryId", JStr "12341234"); ("entityRegistrationNumber", JStr "6322");
                  ("docType", JStr "entry")])
           (JStr "12341234") "12341234" (JStr "6322") "6322").
  - reflexivity.
  - reflexivity.
  - reflexivity.
  - reflexivity.
  - reflexivity.
  - reflexivity.
  - left. reflexivity.
Defined.

(* ================================================================== *)
(** ** The selector and its docType *)
(* ================================================================== *)

(** The claim C6 as it is written does not hold: the selector of this
    query string has a [docType] field, and the call still fails with the
    missing-docType error, because the field is the empty string; and the
    selector of that one has a [docType] field, an object with a property
    called [toString], and the range scan does not proceed: the call throws
    a [TypeError] with no cursor opened. *)
Lemma missing_docType_counterexample :
  (JSON_parse (JSRuntime := Reference.runtime) Sample.empty_docType
   = Some (JObj [("selector", JObj [("docType", JStr "")])])
   /\ fst (queryByString (RT := Reference.runtime) Sample.entities Sample.empty_docType)
      = Throw (MissingDocType Sample.empty_docType))
  /\ (JSON_parse (JSRuntime := Reference.runtime) Sample.docType_object
      = Some (JObj [("selector", JObj [("docType", JObj [("toString", JNum 1)])])])
      /\ queryByString (RT := Reference.runtime) Sample.entities Sample.docType_object
         = (Throw TypeError, None)).
Proof. repeat split; reflexivity. Qed.

(** C6, amended.  When the query string parses to a value other than
    [null], [queryByString] fails with the missing-docType error exactly
    when there is no selector object with a [docType] field or the
    [docType] is falsy (empty string, [0], [false], [null]).  With a truthy
    [docType] no such error is raised: the call opens the range scan when
    the [docType] converts to text, and it throws a [TypeError] before any
    scan when it does not (an object with a property called [toString]). *)
Theorem missing_docType_iff {RT : JSRuntime} {S : Type} {ST : Stub S}
  (stub : S) (queryString : string) (jsonQueryString : jsval) :
  JSON_parse queryString = Some jsonQueryString ->
  readable jsonQueryString = true ->
  (fst (queryByString stub queryString) = Throw (MissingDocType queryString)
   <-> match docType_of jsonQueryString with
       | Some docType => truthy docType = false
       | None => True
       end)
  /\ (forall docType,
        docType_of jsonQueryString = Some docType -> truthy docType = true ->
        if converts docType
        then exists iterator, snd (queryByString stub queryString) = Some iterator
        else queryByString stub queryString = (Throw TypeError, None)).
Proof.
  intros Hp Hr. pose proof (range_of_spec queryString _ Hr) as Hrange.
  destruct (docType_of jsonQueryString) as [d|]; cbn beta iota in *.
  - destruct (truthy d) eqn:Ht.
    + destruct (js_to_string d) as [text|e] eqn:Ed; cbn [bind] in Hrange.
      * rewrite (queryByString_opens stub _ _ _ _ Hp Hrange). cbn [fst snd].
        split.
        -- split; [|intros H; discriminate H].
           intros H. apply scan_throws in H. unfold MissingDocType in H.
           destruct H as [H|[r H]]; discriminate H.
        -- intros docType H1 _. inversion H1; subst docType.
           unfold converts. rewrite Ed. eauto.
      * rewrite (queryByString_fails_early stub _ _ _ Hp Hrange). cbn [fst].
        pose proof (js_to_string_throws _ _ Ed) as ->.
        split.
        -- split; [|intros H; discriminate H].
           unfold MissingDocType. intros H. discriminate H.
        -- intros docType H1 _. inversion H1; subst docType.
           unfold converts. now rewrite Ed.
    + rewrite (queryByString_fails_early stub _ _ _ Hp Hrange).
      split; [split; auto|]. intros docType H1 H2. congruence.
  - rewrite (queryByString_fails_early stub _ _ _ Hp Hrange).
    split; [split; auto|]. discriminate.
Qed.

Lemma missing_docType_witness :
  fst (queryByString (RT := Reference.runtime) Sample.entities Sample.empty_docType)
  = Throw (MissingDocType Sample.empty_docType)
  /\ (exists iterator,
        snd (queryByString (RT := Reference.runtime) Sample.entities Sample.all_entities)
        = Some iterator)
  /\ queryByString (RT := Reference.runtime) Sample.entities Sample.docType_object
     = (Throw TypeError, None).
Proof.
  split; [|split].
  - apply (proj1 (missing_docType_iff (RT := Reference.runtime) Sample.entities
                    Sample.empty_docType
                    (JObj [("selector", JObj [("docType", JStr "")])])
                    eq_refl eq_refl)).
    reflexivity.
  - apply (proj2 (missing_docType_iff (RT := Reference.runtime) Sample.entities
                    Sample.all_entities
                    (JObj [("selector", JObj [("docType", JStr "entity")])])
                    eq_refl eq_refl) (JStr "entity")); reflexivity.
  - apply (proj2 (missing_docType_iff (RT := Reference.runtime) Sample.entities
                    Sample.docType_object
                    (JObj [("selector", JObj [("docType", JObj [("toString", JNum 1)])])])
                    eq_refl eq_refl) (JObj [("toString", JNum 1)])); reflexivity.
Defined.

(* ================================================================== *)
(** ** Calls on the ledger *)
(* ================================================================== *)

Lemma docType_of_selector jsonQueryString fields docType :
  js_get jsonQueryString "selector" = Ok (JObj fields) ->
  assoc "docType" fields = Some docType ->
  docType_of jsonQueryString = Some docType /\ readable jsonQueryString = true.
Proof.
  intros Hs Hd. destruct jsonQueryString as [| | |neg|b|n|s|xs|fs|name];
    try discriminate Hs.
  simpl in Hs |- *. destruct (assoc "selector" fs) as [sel|]; [|discriminate Hs].
  inversion Hs; subst. auto.
Qed.

Lemma In_selected {RT : JSRuntime} jsonRecord kvs e :
  In e (selected jsonRecord kvs) <->
  exists kv, In kv kvs /\ nonempty kv = true /\ e = entry_of kv
             /\ 1 <= copies jsonRecord kv.
Proof.
  unfold selected. rewrite in_flat_map. split.
  - intros [kv [Hin He]]. apply filter_In in Hin. destruct Hin as [Hin Hne].
    exists kv. destruct (copies jsonRecord kv) as [|n]; [contradiction|].
    apply repeat_spec in He. repeat split; auto. lia.
  - intros [kv [Hin [Hne [-> Hc]]]]. exists kv. split.
    + apply filter_In. auto.
    + destruct (copies jsonRecord kv) as [|n]; [lia|]. now left.
Qed.

Lemma selected_single_field {RT : JSRuntime} jsonRecord kvs :
  List.length (Object_keys jsonRecord) = 1 ->
  selected jsonRecord kvs = map entry_of (filter nonempty kvs).
Proof.
  intros H. unfold selected, copies. rewrite H. simpl.
  induction (filter nonempty kvs) as [|kv l IH]; simpl; [reflexivity|].
  now rewrite IH.
Qed.

Section OnLedger.
Context {RT : JSRuntime}.

Lemma queryByString_ledger (l : Ledger.t) queryString jsonQueryString fields docType
  text :
  JSON_parse queryString = Some jsonQueryString ->
  js_get jsonQueryString "selector" = Ok (JObj fields) ->
  assoc "docType" fields = Some docType ->
  truthy docType = true ->
  js_to_string docType = Ok text ->
  fst (queryByString l queryString)
  = collect jsonQueryString
      (Ledger.range (text ++ "0") (text ++ "z") (Ledger.world l)) []
  /\ exists iterator,
       snd (queryByString l queryString) = Some iterator
       /\ Iterator.closed iterator
          = match fst (queryByString l queryString) with
            | Ok _ => 1
            | Throw _ => 0
            end.
Proof.
  intros Hp Hs Hd Ht Hc.
  pose proof (range_of_selector queryString _ _ _ Hs Hd Ht) as Hrange.
  rewrite Hc in Hrange. cbn [bind] in Hrange.
  rewrite (queryByString_opens l _ _ _ _ Hp Hrange). cbn [fst snd].
  cbn [getStateByRange Ledger.stub Iterator.pending Iterator.closed].
  split; [apply scan_deliver|].
  eexists. split; [reflexivity|]. apply scan_closed.
Qed.

(** A call that returns has converted its [docType] to text. *)
Lemma queryByString_returned {S : Type} {ST : Stub S} (stub : S) queryString
  jsonQueryString fields docType payload :
  JSON_parse queryString = Some jsonQueryString ->
  js_get jsonQueryString "selector" = Ok (JObj fields) ->
  assoc "docType" fields = Some docType ->
  truthy docType = true ->
  fst (queryByString stub queryString) = Ok payload ->
  exists text, js_to_string docType = Ok text.
Proof.
  intros Hp Hs Hd Ht Hok.
  pose proof (range_of_selector queryString _ _ _ Hs Hd Ht) as Hrange.
  destruct (js_to_string docType) as [text|e]; [eauto|].
  cbn [bind] in Hrange.
  rewrite (queryByString_fails_early stub _ _ _ Hp Hrange) in Hok. discriminate Hok.
Qed.

Lemma queryHistoryForKey_ledger (l : Ledger.t) args json key docType k :
  JSON_parse args = Some json ->
  js_get json "key" = Ok key ->
  js_get json "docType" = Ok docType ->
  js_plus docType key = Ok (JStr k) ->
  fst (queryHistoryForKey l args)
  = Ok (map history_of (filter recorded (Ledger.changes k (Ledger.log l))))
  /\ exists iterator,
       snd (queryHistoryForKey l args) = Some iterator
       /\ Iterator.closed iterator = 1.
Proof.
  intros Hp Hk Hd Hplus.
  rewrite (queryHistoryForKey_opens l _ _ (history_key_sum _ _ _ _ _ Hp Hk Hd Hplus)).
  cbn [fst snd].
  cbn [getHistoryForKey Ledger.stub Iterator.pending Iterator.closed].
  split; [now rewrite replay_deliver|].
  eexists. split; [reflexivity|].
  rewrite replay_closed, replay_deliver. reflexivity.
Qed.

End OnLedger.

(** In an ordered store a key has one binding. *)
Lemma compare_refl (k : string) : String.compare k k = Eq.
Proof.
  induction k as [|c k IH]; simpl; [reflexivity|].
  unfold Ascii.compare. now rewrite N.compare_refl.
Qed.



Lemma In_range (startKey endKey : string) (w : list (string * string)) (kv : KV.t) :
  In kv (Ledger.range startKey endKey w) <->
  In (KV.key kv, KV.value kv) w
  /\ String.leb startKey (KV.key kv) = true
  /\ String.ltb (KV.key kv) endKey = true.
Proof.
  unfold Ledger.range. rewrite in_map_iff. split.
  - intros [[k v] [<- Hin]]. apply filter_In in Hin. destruct Hin as [Hin Hr].
    unfold Ledger.in_range in Hr. apply andb_true_iff in Hr. simpl in *. tauto.
  - intros [Hin [H1 H2]]. exists (KV.key kv, KV.value kv). split.
    + destruct kv; reflexivity.
    + apply filter_In. split; [exact Hin|].
      unfold Ledger.in_range. simpl. now rewrite H1, H2.
Qed.

(** [putState] keeps the store ordered, and a later [getState] reads what
    it wrote. *)
Lemma ltb_lt (a b : string) : String.ltb a b = true <-> String_as_OT.lt a b.
Proof.
  rewrite <- String_as_OT.cmp_lt. unfold String.ltb, String_as_OT.cmp.
  destruct (String.compare a b); split; congruence.
Qed.

Lemma ltb_trans (a b c : string) :
  String.ltb a b = true -> String.ltb b c = true -> String.ltb a c = true.
Proof.
  rewrite !ltb_lt. apply String_as_OT.lt_trans.
Qed.

Lemma compare_Gt_ltb (a b : string) : String.compare a b = Gt -> String.ltb b a = true.
Proof.
  intros H. unfold String.ltb. rewrite String.compare_antisym, H. reflexivity.
Qed.

Lemma insert_ordered (k v : string) (w : list (string * string)) :
  Ledger.ordered w -> Ledger.ordered (Ledger.insert k v w).
Proof.
  unfold Ledger.ordered.
  induction 1 as [|[k' v'] w Hs IH Hall]; simpl.
  - constructor; constructor.
  - destruct (String.compare k k') eqn:E.
    + apply String.compare_eq_iff in E. subst k'. constructor; assumption.
    + assert (Hlt : String.ltb k k' = true) by (unfold String.ltb; now rewrite E).
      constructor; [constructor; assumption|].
      constructor; [exact Hlt|].
      eapply Forall_impl; [|exact Hall]. intros [k2 v2] H2.
      unfold Ledger.key_lt in *. simpl in *. eapply ltb_trans; eassumption.
    + constructor; [exact IH|].
      assert (Hin : forall b, In b (Ledger.insert k v w) -> b = (k, v) \/ In b w).
      { clear. induction w as [|[k1 v1] w IHw]; simpl; intros b Hb.
        - destruct Hb as [Hb|[]]. now left.
        - destruct (String.compare k k1); simpl in Hb.
          + destruct Hb as [Hb|Hb]; auto.
          + destruct Hb as [Hb|[Hb|Hb]]; auto.
          + destruct Hb as [Hb|Hb]; auto.
            apply IHw in Hb. destruct Hb; auto. }
      rewrite Forall_forall in *. intros b Hb. apply Hin in Hb.
      destruct Hb as [-> | Hb]; [|now apply Hall].
      unfold Ledger.key_lt. simpl. now apply compare_Gt_ltb.
Qed.

Lemma assoc_insert (k v k' : string) (w : list (string * string)) :
  assoc k' (Ledger.insert k v w) = if k =? k' then Some v else assoc k' w.
Proof.
  induction w as [|[k1 v1] w IH]; simpl; [reflexivity|].
  destruct (String.compare k k1) eqn:E; simpl.
  - apply String.compare_eq_iff in E. subst k1.
    destruct (k =? k'); reflexivity.
  - reflexivity.
  - rewrite IH. destruct (String.eqb_spec k1 k') as [->|H1]; [|reflexivity].
    destruct (String.eqb_spec k k') as [->|H2]; [|reflexivity].
    rewrite compare_refl in E. discriminate.
Qed.

(* ================================================================== *)
(** ** The cursor *)
(* ================================================================== *)

(** The claim C4 as it is written does not hold: the first record of this
    scan is the JSON text [null], the field test on it throws, and the call
    ends with the cursor never closed; and this history call ends at the
    failure of its second [next()], again with the cursor never closed. *)
Lemma cursor_not_closed_counterexample :
  (fst (queryByString (RT := Reference.runtime) Sample.nulled Sample.named_alpha)
   = Throw TypeError
   /\ option_map Iterator.closed
        (snd (queryByString (RT := Reference.runtime) Sample.nulled Sample.named_alpha))
      = Some 0)
  /\
  (fst (queryHistoryForKey (RT := Reference.runtime) Sample.dropped Sample.history_args)
   = Throw (StubFailure "connection lost")
   /\ option_map Iterator.closed
        (snd (queryHistoryForKey (RT := Reference.runtime) Sample.dropped
                Sample.history_args))
      = Some 0).
Proof. repeat split; reflexivity. Qed.

(** C4, amended.  A range scan or a history call that returns, with zero,
    one or many entries, has closed the cursor the stub gave it exactly
    once; a call that ends by an exception raised during the iteration has
    not closed it. *)
Theorem cursor_closed_once_on_return {RT : JSRuntime} {S : Type} {ST : Stub S}
  (stub : S) (text : string) :
  (forall r iterator,
     queryByString stub text = (r, Some iterator) ->
     exists jsonQueryString startKey endKey,
       JSON_parse text = Some jsonQueryString
       /\ range_of text jsonQueryString = Ok (startKey, endKey)
       /\ Iterator.closed iterator
          = match r with
            | Ok _ => 1 + Iterator.closed (getStateByRange stub startKey endKey)
            | Throw _ => Iterator.closed (getStateByRange stub startKey endKey)
            end)
  /\ (forall payload, fst (queryByString stub text) = Ok payload ->
        exists iterator, snd (queryByString stub text) = Some iterator)
  /\ (forall r iterator,
        queryHistoryForKey stub text = (r, Some iterator) ->
        exists json key docType historyKey,
          JSON_parse text = Some json
          /\ js_get json "key" = Ok key
          /\ js_get json "docType" = Ok docType
          /\ js_plus docType key = Ok historyKey
          /\ Iterator.closed iterator
             = match r with
               | Ok _ => 1 + Iterator.closed (getHistoryForKey stub historyKey)
               | Throw _ => Iterator.closed (getHistoryForKey stub historyKey)
               end)
  /\ (forall history, fst (queryHistoryForKey stub text) = Ok history ->
        exists iterator, snd (queryHistoryForKey stub text) = Some iterator).
Proof.
  assert (Hq : forall r (iterator : Iterator.t KV.t),
             queryByString stub text = (r, Some iterator) ->
             exists jsonQueryString startKey endKey,
               JSON_parse text = Some jsonQueryString
               /\ range_of text jsonQueryString = Ok (startKey, endKey)
               /\ Iterator.closed iterator
                  = match r with
                    | Ok _ => 1 + Iterator.closed (getStateByRange stub startKey endKey)
                    | Throw _ => Iterator.closed (getStateByRange stub startKey endKey)
                    end).
  { intros r iterator. unfold queryByString, parse.
    destruct (JSON_parse text) as [json|] eqn:Hp; [|discriminate].
    destruct (range_of text json) as [[startKey endKey]|e0] eqn:Hr; [|discriminate].
    pose proof (scan_closed json (Iterator.pending (getStateByRange stub startKey endKey))
                  (Iterator.closed (getStateByRange stub startKey endKey)) []) as Hc.
    destruct (scan json _ _ _) as [r' it]. cbn [fst snd] in Hc.
    intros H. inversion H; subst. exists json, startKey, endKey.
    repeat split; auto. }
  assert (Hh : forall r (iterator : Iterator.t KeyModification.t),
             queryHistoryForKey stub text = (r, Some iterator) ->
             exists json key docType historyKey,
               JSON_parse text = Some json
               /\ js_get json "key" = Ok key
               /\ js_get json "docType" = Ok docType
               /\ js_plus docType key = Ok historyKey
               /\ Iterator.closed iterator
                  = match r with
                    | Ok _ => 1 + Iterator.closed (getHistoryForKey stub historyKey)
                    | Throw _ => Iterator.closed (getHistoryForKey stub historyKey)
                    end).
  { intros r iterator. unfold queryHistoryForKey.
    destruct (history_key text) as [historyKey|e0] eqn:Hkey; [|discriminate].
    destruct (history_key_read _ _ Hkey) as [json [key [docType [Hp [Hk [Hd Hplus]]]]]].
    pose proof (replay_closed
                  (Iterator.pending (getHistoryForKey stub historyKey))
                  (Iterator.closed (getHistoryForKey stub historyKey)) [])
      as Hc.
    destruct (replay _ _ _) as [r' it]. cbn [fst snd] in Hc.
    intros H. inversion H; subst. exists json, key, docType, historyKey.
    repeat split; auto. }
  split; [exact Hq|]. split; [|split; [exact Hh|]].
  - intros payload. unfold queryByString.
    destruct (parse text) as [json|e0]; [|discriminate].
    destruct (range_of text json) as [[startKey endKey]|e0]; [|discriminate].
    destruct (scan json _ _ _) as [r it]. cbn [fst snd]. eauto.
  - intros history. unfold queryHistoryForKey.
    destruct (history_key text) as [historyKey|e0]; [|discriminate].
    destruct (replay _ _ _) as [r it]. cbn [fst snd]. eauto.
Qed.

Lemma cursor_closed_once_on_return_witness :
  exists jsonQueryString startKey endKey,
    JSON_parse (JSRuntime := Reference.runtime) Sample.named_beta = Some jsonQueryString
    /\ range_of Sample.named_beta jsonQueryString = Ok (startKey, endKey)
    /\ 1 = 1 + Iterator.closed (getStateByRange Sample.entities startKey endKey).
Proof.
  exact (proj1 (cursor_closed_once_on_return (RT := Reference.runtime)
                  Sample.entities Sample.named_beta)
           (Ok [entry_of (RT := Reference.runtime)
                  {| KV.key := "entity002"; KV.value := Sample.beta |}])
           {| Iterator.pending := []; Iterator.closed := 1 |}
           eq_refl).
Defined.

(* ================================================================== *)
(** ** History *)
(* ================================================================== *)


(* ================================================================== *)
(** ** Empty values *)
(* ================================================================== *)



(* ================================================================== *)
(** ** Range scans *)
(* ================================================================== *)


Lemma StronglySorted_filter {A : Type} (R : A -> A -> Prop) (f : A -> bool) (l : list A) :
  StronglySorted R l -> StronglySorted R (filter f l).
Proof.
  induction 1 as [|a l Hs IH Hall]; simpl; [constructor|].
  destruct (f a); [|exact IH].
  constructor; [exact IH|].
  rewrite Forall_forall in *. intros x Hx. apply filter_In in Hx. now apply Hall.
Qed.

Lemma StronglySorted_map {A B : Type} (R : B -> B -> Prop) (g : A -> B) (l : list A) :
  StronglySorted (fun x y => R (g x) (g y)) l -> StronglySorted R (map g l).
Proof.
  induction 1 as [|a l Hs IH Hall]; simpl; constructor; [exact IH|].
  rewrite Forall_forall in *. intros y Hy. apply in_map_iff in Hy.
  destruct Hy as [x [<- Hx]]. now apply Hall.
Qed.




Section Filtering.
Context {RT : JSRuntime}.

Lemma field_matches_docType jsonRecord record :
  field_matches jsonRecord record "docType" = false.
Proof. reflexivity. Qed.

(** With one field beside [docType], the record is pushed once or not at
    all, by the test on that field. *)
Lemma hits_one_field fields docType f v record :
  fields = [("docType", docType); (f, v)] \/ fields = [(f, v); ("docType", docType)] ->
  f <> "docType" ->
  1 <= hits (JObj fields) record ->
  exists found,
    js_read record f = Ok found /\ truthy found = true /\ loose_eq found v = true.
Proof.
  intros Hf Hne Hhits.
  assert (Hm : field_matches (JObj fields) record f = true).
  { unfold hits in Hhits.
    destruct Hf as [-> | ->]; cbn [Object_keys map fst filter] in Hhits;
      rewrite field_matches_docType in Hhits;
      destruct (field_matches _ record f); simpl in Hhits; auto; lia. }
  assert (Hv : js_get (JObj fields) f = Ok v).
  { destruct Hf as [-> | ->]; cbn [js_get assoc].
    - destruct (String.eqb_spec "docType" f); [congruence|].
      now rewrite String.eqb_refl.
    - now rewrite String.eqb_refl. }
  unfold field_matches in Hm. rewrite Hv in Hm.
  apply andb_true_iff in Hm. destruct Hm as [_ Hm].
  destruct (js_read record f) as [found|]; [|discriminate].
  apply andb_true_iff in Hm. exists found. tauto.
Qed.

End Filtering.

(** C2.  For a selector with [docType] and one more field [f] of value
    [v], [queryByString] is a strict filter: every entry it returns has a
    record whose [f] is [==] to [v], and every scanned binding whose record
    lacks [f], or has another value for it, is left out.  The call returns
    whenever [f] is not [hasOwnProperty], [v] converts to text, and every
    scanned record can be read at [f] and has there a value that converts to
    text (no scanned record is [null], and none has for [f] an object with a
    property called [toString]). *)
Theorem filter_by_one_field {RT : JSRuntime} (l : Ledger.t) (queryString : string)
  (jsonQueryString : jsval) (fields : list (string * jsval)) (docType : jsval)
  (text : string) (f : string) (v : jsval) :
  JSON_parse queryString = Some jsonQueryString ->
  js_get jsonQueryString "selector" = Ok (JObj fields) ->
  fields = [("docType", docType); (f, v)] \/ fields = [(f, v); ("docType", docType)] ->
  f <> "docType" ->
  truthy docType = true ->
  js_to_string docType = Ok text ->
  (forall payload,
     fst (queryByString l queryString) = Ok payload ->
     (forall e, In e payload ->
        exists found,
          js_read (QueryResult.Record_ e) f = Ok found
          /\ truthy found = true /\ loose_eq found v = true)
     /\ (forall kv,
           In kv (Ledger.range (text ++ "0") (text ++ "z") (Ledger.world l)) ->
           js_read (decode (KV.value kv)) f = Ok JUndefined
           \/ (exists found, js_read (decode (KV.value kv)) f = Ok found
                             /\ loose_eq found v = false) ->
           ~ In {| QueryResult.Key := KV.key kv;
                   QueryResult.Record_ := decode (KV.value kv) |} payload))
  /\ (f <> "hasOwnProperty" ->
      converts v = true ->
      Forall (fun kv => KV.value kv <> "" ->
                        exists found,
                          js_read (decode (KV.value kv)) f = Ok found
                          /\ converts found = true)
        (Ledger.range (text ++ "0") (text ++ "z") (Ledger.world l)) ->
      exists payload, fst (queryByString l queryString) = Ok payload).
Proof.
  intros Hp Hs Hf Hne Ht Hc.
  assert (Hd : assoc "docType" fields = Some docType).
  { destruct Hf as [-> | ->]; cbn [assoc]; [reflexivity|].
    destruct (String.eqb_spec f "docType"); [contradiction|reflexivity]. }
  assert (Hv : js_get (JObj fields) f = Ok v).
  { destruct Hf as [-> | ->]; cbn [js_get assoc].
    - destruct (String.eqb_spec "docType" f); [congruence|].
      now rewrite String.eqb_refl.
    - now rewrite String.eqb_refl. }
  destruct (queryByString_ledger l _ _ _ _ _ Hp Hs Hd Ht Hc) as [Hfst _].
  rewrite Hfst. split.
  - intros payload Hok. apply (collect_spec _ _ _ Hs) in Hok. simpl in Hok.
    assert (Hin : forall e, In e payload ->
              exists found,
                js_read (QueryResult.Record_ e) f = Ok found
                /\ truthy found = true /\ loose_eq found v = true).
    { intros e He. subst payload. apply In_selected in He.
      destruct He as [kv [_ [_ [-> Hcopies]]]]. simpl.
      apply (hits_one_field fields docType f v _ Hf Hne).
      unfold copies in Hcopies.
      replace (List.length (Object_keys (JObj fields))) with 2 in Hcopies
        by (destruct Hf as [-> | ->]; reflexivity).
      exact Hcopies. }
    split; [exact Hin|].
    intros kv _ Hbad He. apply Hin in He. simpl in He.
    destruct He as [found [Hg [Htr Heq]]].
    destruct Hbad as [Hu | [found' [Hg' Hne']]]; rewrite Hg in *.
    + inversion Hu; subst. discriminate Htr.
    + inversion Hg'; subst. congruence.
  - intros Hown Hconv Hall. eexists. apply (collect_returns _ _ _ Hs). right. split.
    + destruct Hf as [-> | ->]; cbn [js_get assoc];
        destruct (String.eqb_spec f "hasOwnProperty"); try contradiction;
        reflexivity.
    + eapply Forall_impl; [|exact Hall]. intros kv H Hn.
      destruct (H (proj1 (nonempty_string _) Hn)) as [found [Hread Hfound]].
      assert (Hdoc : field_runs (JObj fields) (decode (KV.value kv)) "docType" = true).
      { unfold field_runs. cbn [js_get]. rewrite Hd. unfold converts. rewrite Hc.
        reflexivity. }
      assert (Hfield : field_runs (JObj fields) (decode (KV.value kv)) f = true).
      { unfold field_runs. rewrite Hv, Hconv, Hread, Hfound. cbn [andb].
        apply orb_true_r. }
      unfold loop_runs. destruct Hf as [E | E]; rewrite E in *;
        cbn [Object_keys map fst forallb]; now rewrite Hdoc, Hfield.
Qed.

Lemma filter_by_one_field_witness :
  (forall e,
     In e [ entry_of (RT := Reference.runtime)
              {| KV.key := "entity002"; KV.value := Sample.beta |} ] ->
     exists found,
       js_read (RT := Reference.runtime) (QueryResult.Record_ e) "entityName" = Ok found
       /\ truthy found = true /\ Reference.equals found (JStr "Beta") = true)
  /\ ~ In {| QueryResult.Key := "entity001";
             QueryResult.Record_ := decode (RT := Reference.runtime) Sample.alpha |}
          [ entry_of (RT := Reference.runtime)
              {| KV.key := "entity002"; KV.value := Sample.beta |} ].
Proof.
  pose proof (proj1 (filter_by_one_field (RT := Reference.runtime) Sample.entities
                Sample.named_beta
                (JObj [("selector", JObj [("docType", JStr "entity");
                                          ("entityName", JStr "Beta")])])
                [("docType", JStr "entity"); ("entityName", JStr "Beta")]
                (JStr "entity") "entity" "entityName" (JStr "Beta")
                eq_refl eq_refl (or_introl eq_refl)
                ltac:(discriminate) eq_refl eq_refl)
                [ entry_of (RT := Reference.runtime)
                    {| KV.key := "entity002"; KV.value := Sample.beta |} ]
                eq_refl) as [H1 H2].
  split; [exact H1|].
  apply (H2 {| KV.key := "entity001"; KV.value := Sample.alpha |}).
  - left. reflexivity.
  - right. exists (JStr "Alpha"). split; reflexivity.
Defined.



(* ================================================================== *)
(** ** Values that are not JSON *)
(* ================================================================== *)

(** The claim C7 as it is written does not hold: the value of [entity002]
    is not empty and is not JSON, the scan with a selector field does not
    abort, and the entry of [entity002] is not in its result. *)
Lemma undecodable_value_counterexample :
  assoc "entity002" (Ledger.world Sample.garbled) = Some "Beta, unstructured"
  /\ JSON_parse (JSRuntime := Reference.runtime) "Beta, unstructured" = None
  /\ fst (queryByString (RT := Reference.runtime) Sample.garbled Sample.named_beta)
     = Ok [].
Proof. repeat split; reflexivity. Qed.

(** A record kept as text can always be read; what it has for a name is
    its length, one of its code units, or what a string inherits. *)
Lemma js_read_text {RT : JSRuntime} (text key : string) :
  (forall key, converts (inherited (JStr text) key) = true) ->
  exists found, js_read (JStr text) key = Ok found /\ converts found = true.
Proof.
  intros Hin. unfold js_read. cbn [js_get].
  destruct (key =? "length"); cbn [bind]; [eauto|].
  destruct (array_index key) as [i|]; cbn [bind]; [|eauto].
  destruct (nth_error (units text) i); cbn [bind]; eauto.
Qed.

Lemma loop_runs_on_text {RT : JSRuntime} (fields : list (string * jsval))
  (text : string) :
  Forall (fun field => converts (snd field) = true) fields ->
  (forall key, converts (inherited (JStr text) key) = true) ->
  loop_runs (JObj fields) (JStr text) = true.
Proof.
  intros Hvalues Hin. unfold loop_runs. apply forallb_forall. intros key Hkey.
  cbn [Object_keys] in Hkey. destruct (assoc_found _ _ Hkey) as [v Hv].
  unfold field_runs. cbn [js_get]. rewrite Hv.
  rewrite Forall_forall in Hvalues.
  pose proof (Hvalues (key, v) (assoc_In _ _ _ Hv)) as Hcv. cbn [snd] in Hcv.
  rewrite Hcv. cbn [andb].
  destruct (js_read_text text key Hin) as [found [-> ->]].
  apply orb_true_r.
Qed.

(** C7, amended.  A stored value that is not empty and does not parse as
    JSON does not end the call.  A history, and a scan whose selector has
    [docType] alone, has its entry with the text of the value as the record.
    A scan whose selector has more fields tests that text like a decoded
    record: the entry is in the result exactly when the text satisfies one
    of the fields.  The other entries are handled as usual: the call returns
    when the loop runs on them. *)
Theorem undecodable_value_is_kept_as_text {RT : JSRuntime} (l : Ledger.t)
  (bytes : string) :
  bytes <> "" ->
  JSON_parse bytes = None ->
  (forall args json key docType k km,
     JSON_parse args = Some json ->
     js_get json "key" = Ok key ->
     js_get json "docType" = Ok docType ->
     js_plus docType key = Ok (JStr k) ->
     In km (Ledger.changes k (Ledger.log l)) ->
     KeyModification.value km = bytes ->
     exists history,
       fst (queryHistoryForKey l args) = Ok history
       /\ In {| HistoryResult.TxId := KeyModification.tx_id km;
                HistoryResult.Timestamp := KeyModification.timestamp km;
                HistoryResult.IsDelete :=
                  if KeyModification.is_delete km then "true" else "false";
                HistoryResult.Record_ := JStr bytes |} history)
  /\
  (forall queryString jsonQueryString docType text key,
     JSON_parse queryString = Some jsonQueryString ->
     js_get jsonQueryString "selector" = Ok (JObj [("docType", docType)]) ->
     truthy docType = true ->
     js_to_string docType = Ok text ->
     In {| KV.key := key; KV.value := bytes |}
        (Ledger.range (text ++ "0") (text ++ "z") (Ledger.world l)) ->
     exists payload,
       fst (queryByString l queryString) = Ok payload
       /\ In {| QueryResult.Key := key; QueryResult.Record_ := JStr bytes |} payload)
  /\
  (forall queryString jsonQueryString fields docType text key,
     JSON_parse queryString = Some jsonQueryString ->
     js_get jsonQueryString "selector" = Ok (JObj fields) ->
     assoc "docType" fields = Some docType ->
     truthy docType = true ->
     js_to_string docType = Ok text ->
     List.length fields <> 1 ->
     assoc "hasOwnProperty" fields = None ->
     Forall (fun field => converts (snd field) = true) fields ->
     (forall name, converts (inherited (JStr bytes) name) = true) ->
     In {| KV.key := key; KV.value := bytes |}
        (Ledger.range (text ++ "0") (text ++ "z") (Ledger.world l)) ->
     Forall (fun kv => KV.value kv = bytes \/ KV.value kv = ""
                       \/ loop_runs (JObj fields) (decode (KV.value kv)) = true)
        (Ledger.range (text ++ "0") (text ++ "z") (Ledger.world l)) ->
     exists payload,
       fst (queryByString l queryString) = Ok payload
       /\ (In {| QueryResult.Key := key; QueryResult.Record_ := JStr bytes |} payload
           <-> exists f, In f (map fst fields)
                         /\ field_matches (JObj fields) (JStr bytes) f = true)).
Proof.
  intros Hne Hfail.
  assert (Hdec : decode bytes = JStr bytes) by (unfold decode; now rewrite Hfail).
  split; [|split].
  - intros args json key docType k km Hp Hk Hd Hplus Hin Hv.
    destruct (queryHistoryForKey_ledger l _ _ _ _ _ Hp Hk Hd Hplus) as [Hfst _].
    eexists. split; [exact Hfst|].
    apply in_map_iff. exists km. split.
    + unfold history_of. now rewrite Hv, Hdec.
    + apply filter_In. split; [exact Hin|].
      unfold recorded. rewrite Hv. now apply nonempty_string.
  - intros queryString json docType text key Hp Hs Ht Hc Hin.
    destruct (queryByString_ledger l _ _ _ docType _ Hp Hs eq_refl Ht Hc) as [Hfst _].
    rewrite (collect_returns _ _ _ Hs (or_introl eq_refl)) in Hfst.
    simpl in Hfst. eexists. split; [exact Hfst|].
    apply In_selected. exists {| KV.key := key; KV.value := bytes |}.
    repeat split.
    + exact Hin.
    + now apply nonempty_string.
    + unfold entry_of. simpl. now rewrite Hdec.
    + unfold copies. simpl. lia.
  - intros queryString json fields docType text key Hp Hs Hd Ht Hc Hlen Hown Hvalues
      Hinh Hin Hall.
    destruct (queryByString_ledger l _ _ _ _ _ Hp Hs Hd Ht Hc) as [Hfst _].
    assert (Hret : Forall (fun kv => nonempty kv = true ->
                                     loop_runs (JObj fields) (decode (KV.value kv)) = true)
                     (Ledger.range (text ++ "0") (text ++ "z") (Ledger.world l))).
    { eapply Forall_impl; [|exact Hall]. intros kv [H|[H|H]] Hn; auto.
      - rewrite H, Hdec. now apply loop_runs_on_text.
      - unfold nonempty in Hn. rewrite H in Hn. discriminate. }
    assert (Hm : js_get (JObj fields) "hasOwnProperty" = Ok JUndefined)
      by (cbn [js_get]; now rewrite Hown).
    rewrite (collect_returns _ _ _ Hs (or_intror (conj Hm Hret))) in Hfst.
    simpl in Hfst. eexists. split; [exact Hfst|].
    assert (Hcopies : forall kv,
              decode (KV.value kv) = JStr bytes ->
              (1 <= copies (JObj fields) kv
               <-> exists f, In f (map fst fields)
                             /\ field_matches (JObj fields) (JStr bytes) f = true)).
    { intros kv Hkv. unfold copies, hits. cbn [Object_keys].
      rewrite length_map. destruct (Nat.eqb_spec (List.length fields) 1) as [E|_];
        [contradiction|].
      rewrite Hkv. split.
      - intros H1.
        destruct (filter (field_matches (JObj fields) (JStr bytes)) (map fst fields))
          as [|f fs] eqn:E; [simpl in H1; lia|].
        exists f. apply filter_In. rewrite E. now left.
      - intros [f Hf]. apply filter_In in Hf.
        destruct (filter (field_matches (JObj fields) (JStr bytes)) (map fst fields));
          [contradiction|simpl; lia]. }
    rewrite In_selected. split.
    + intros [kv [_ [_ [He Hcp]]]]. unfold entry_of in He. inversion He.
      apply (Hcopies kv); auto.
    + intros Hf. exists {| KV.key := key; KV.value := bytes |}. repeat split.
      * exact Hin.
      * now apply nonempty_string.
      * unfold entry_of. simpl. now rewrite Hdec.
      * apply Hcopies; [exact Hdec|exact Hf].
Qed.

Lemma undecodable_value_is_kept_as_text_witness :
  (exists history,
     fst (queryHistoryForKey (RT := Reference.runtime) Sample.garbled
            (Sample.object [("key", quoted "002"); ("docType", quoted "entity")]))
     = Ok history
     /\ In {| HistoryResult.TxId := "tx9"; HistoryResult.Timestamp := (1009, 0)%Z;
              HistoryResult.IsDelete := "false";
              HistoryResult.Record_ := JStr "Beta, unstructured" |} history)
  /\ (exists payload,
        fst (queryByString (RT := Reference.runtime) Sample.garbled Sample.all_entities)
        = Ok payload
        /\ In {| QueryResult.Key := "entity002";
                 QueryResult.Record_ := JStr "Beta, unstructured" |} payload)
  /\ (exists payload,
        fst (queryByString (RT := Reference.runtime) Sample.garbled Sample.of_length_18)
        = Ok payload
        /\ (In {| QueryResult.Key := "entity002";
                  QueryResult.Record_ := JStr "Beta, unstructured" |} payload
            <-> exists f, In f ["docType"; "length"]
                          /\ field_matches (RT := Reference.runtime)
                               (JObj [("docType", JStr "entity"); ("length", JNum 18)])
                               (JStr "Beta, unstructured") f = true)).
Proof.
  pose proof (undecodable_value_is_kept_as_text (RT := Reference.runtime)
                Sample.garbled "Beta, unstructured" ltac:(discriminate) eq_refl)
    as [Hh [Hs Hf]].
  split; [|split].
  - apply (Hh (Sample.object [("key", quoted "002"); ("docType", quoted "entity")])
             (JObj [("key", JStr "002"); ("docType", JStr "entity")])
             (JStr "002") (JStr "entity") "entity002"
             (Sample.change "tx9" 1009 false "Beta, unstructured")
             eq_refl eq_refl eq_refl eq_refl).
    + left. reflexivity.
    + reflexivity.
  - apply (Hs Sample.all_entities
             (JObj [("selector", JObj [("docType", JStr "entity")])])
             (JStr "entity") "entity" "entity002" eq_refl eq_refl eq_refl eq_refl).
    right. left. reflexivity.
  - apply (Hf Sample.of_length_18
             (JObj [("selector", JObj [("docType", JStr "entity"); ("length", JNum 18)])])
             [("docType", JStr "entity"); ("length", JNum 18)]
             (JStr "entity") "entity" "entity002"
             eq_refl eq_refl eq_refl eq_refl eq_refl).
    + discriminate.
    + reflexivity.
    + repeat constructor.
    + intros name. unfold converts. cbn [inherited Reference.runtime].
      unfold Reference.member. destruct (existsb _ _); reflexivity.
    + right. left. reflexivity.
    + repeat constructor; right; right; reflexivity.
Defined.

(** X1.  An entity created under a free registration number can be read
    back: when the number converts to text, [createEntity] succeeds,
    [queryEntity] with the same arguments then returns exactly the text that
    was stored (the JSON of the arguments with [docType] set to [entity]),
    and a second [createEntity] with these arguments fails with the
    already-exists error and changes nothing. *)
Theorem createEntity_then_queryEntity {RT : JSRuntime} (l : Ledger.t) (args : string)
  (fields : list (string * jsval)) (entityRegistrationNumber : jsval)
  (number : string) :
  JSON_parse args = Some (JObj fields) ->
  js_get (JObj fields) "entityRegistrationNumber" = Ok entityRegistrationNumber ->
  js_to_string entityRegistrationNumber = Ok number ->
  (assoc ("entity" ++ number) (Ledger.world l) = None \/
   assoc ("entity" ++ number) (Ledger.world l) = Some "") ->
  JSON_stringify (JObj (set_field "docType" (JStr "entity") fields)) <> "" ->
  fst (createEntity l args) = Ok tt
  /\ queryEntity (snd (createEntity l args)) args
     = Ok (JSON_stringify (JObj (set_field "docType" (JStr "entity") fields)))
  /\ createEntity (snd (createEntity l args)) args
     = (Throw (Error ("##### createEntity - This Entity already exists: " ++ number)),
        snd (createEntity l args)).
Proof.
  intros Hp Hreg Hn Hfree Htext.
  set (key := "entity" ++ number) in *.
  set (text := JSON_stringify (JObj (set_field "docType" (JStr "entity") fields))) in *.
  assert (Hc : createEntity l args = (Ok tt, putState l key text)).
  { rewrite (createEntity_steps l _ _ _ _ _ Hp Hreg Hn eq_refl). fold key text.
    rewrite (proj2 (vacant_slot l key) Hfree). reflexivity. }
  assert (Hg : getState (putState l key text) key = Some text).
  { rewrite ledger_getState, ledger_putState_world, assoc_insert.
    now rewrite String.eqb_refl. }
  rewrite Hc. cbn [fst snd]. split; [reflexivity|]. split.
  - unfold queryEntity, parse, string_plus. rewrite Hp. cbn [bind]. rewrite Hreg.
    cbn [bind]. rewrite Hn. cbn [bind].
    fold key. rewrite queryByKey_spec, Hg.
    destruct (String.eqb_spec text ""); [contradiction|reflexivity].
  - rewrite (createEntity_steps _ _ _ _ _ _ Hp Hreg Hn eq_refl). fold key text.
    rewrite Hg.
    cbn [truthy]. destruct (String.eqb_spec text ""); [contradiction|reflexivity].
Qed.

Lemma createEntity_then_queryEntity_witness :
  fst (createEntity (RT := Reference.runtime) Sample.nothing Sample.farm_args) = Ok tt
  /\ queryEntity (RT := Reference.runtime)
       (snd (createEntity (RT := Reference.runtime) Sample.nothing Sample.farm_args))
       Sample.farm_args
     = Ok Sample.farm
  /\ createEntity (RT := Reference.runtime)
       (snd (createEntity (RT := Reference.runtime) Sample.nothing Sample.farm_args))
       Sample.farm_args
     = (Throw (Error "##### createEntity - This Entity already exists: 6322"),
        snd (createEntity (RT := Reference.runtime) Sample.nothing Sample.farm_args)).
Proof.
  exact (createEntity_then_queryEntity (RT := Reference.runtime) Sample.nothing
           Sample.farm_args
           [("entityRegistrationNumber", JStr "6322"); ("entityName", JStr "ABC Farm")]
           (JStr "6322") "6322" eq_refl eq_refl eq_refl (or_introl eq_refl)
           ltac:(discriminate)).
Defined.

(** X2.  [createEntity] refuses a registration number whose key already
    holds a non-empty value, whatever the other arguments: it fails with the
    already-exists error and leaves the store as it was.  The key is made of
    the text of the number, so the number [6322] and the string ["6322"] are
    the same registration. *)
Theorem createEntity_refuses_existing {RT : JSRuntime} (l : Ledger.t) (args : string)
  (fields : list (string * jsval)) (entityRegistrationNumber : jsval)
  (number stored : string) :
  JSON_parse args = Some (JObj fields) ->
  js_get (JObj fields) "entityRegistrationNumber" = Ok entityRegistrationNumber ->
  js_to_string entityRegistrationNumber = Ok number ->
  assoc ("entity" ++ number) (Ledger.world l) = Some stored ->
  stored <> "" ->
  createEntity l args
  = (Throw (Error ("##### createEntity - This Entity already exists: " ++ number)), l).
Proof.
  intros Hp Hreg Hn Hs Hne.
  rewrite (createEntity_steps l _ _ _ _ _ Hp Hreg Hn eq_refl).
  rewrite ledger_getState, Hs. cbn [truthy].
  destruct (String.eqb_spec stored ""); [contradiction|reflexivity].
Qed.

Lemma createEntity_refuses_existing_witness :
  createEntity (RT := Reference.runtime) Demo.mixed
    (Sample.object [("entityRegistrationNumber", "6322")])
  = (Throw (Error "##### createEntity - This Entity already exists: 6322"), Demo.mixed).
Proof.
  exact (createEntity_refuses_existing (RT := Reference.runtime) Demo.mixed
           (Sample.object [("entityRegistrationNumber", "6322")])
           [("entityRegistrationNumber", JNum 6322)] (JNum 6322) "6322" Sample.farm
           eq_refl eq_refl eq_refl eq_refl ltac:(discriminate)).
Defined.

(** X3.  [createEntry] accepts an entry whose entity exists and whose own
    key is free, both keys being made of the texts of the ids: it succeeds
    and stores, under [entry] followed by the entry id, the JSON of the
    arguments in which [docType] is [entry] whatever the caller sent for it,
    every other field being as sent; every other key of the store keeps its
    value. *)
Theorem createEntry_stores_entry {RT : JSRuntime} (l : Ledger.t) (args : string)
  (fields : list (string * jsval)) (entryId entityRegistrationNumber : jsval)
  (id number entity : string) :
  JSON_parse args = Some (JObj fields) ->
  js_get (JObj fields) "entryId" = Ok entryId ->
  js_to_string entryId = Ok id ->
  js_get (JObj fields) "entityRegistrationNumber" = Ok entityRegistrationNumber ->
  js_to_string entityRegistrationNumber = Ok number ->
  assoc ("entity" ++ number) (Ledger.world l) = Some entity ->
  entity <> "" ->
  (assoc ("entry" ++ id) (Ledger.world l) = None \/
   assoc ("entry" ++ id) (Ledger.world l) = Some "") ->
  exists stored,
    fst (createEntry l args) = Ok tt
    /\ (forall k,
          assoc k (Ledger.world (snd (createEntry l args)))
          = if "entry" ++ id =? k
            then Some (JSON_stringify (JObj stored))
            else assoc k (Ledger.world l))
    /\ assoc "docType" stored = Some (JStr "entry")
    /\ (forall k, k <> "docType" -> assoc k stored = assoc k fields).
Proof.
  intros Hp Hid Hi Hreg Hn He Hne Hfree.
  exists (set_field "docType" (JStr "entry") fields).
  rewrite (createEntry_steps l _ _ _ _ _ _ _ Hp Hid Hi eq_refl Hreg Hn).
  rewrite ledger_getState, He. cbn [truthy].
  destruct (String.eqb_spec entity ""); [contradiction|]. cbn [negb].
  rewrite (proj2 (vacant_slot l _) Hfree). cbn [truthy String.eqb negb fst snd].
  split; [reflexivity|]. split; [|split].
  - intros k. rewrite ledger_putState_world. apply assoc_insert.
  - apply assoc_set_field_same.
  - intros k Hk. apply assoc_set_field_other. congruence.
Qed.

Lemma createEntry_stores_entry_witness :
  exists stored,
    fst (createEntry (RT := Reference.runtime) Sample.entities
           (Sample.object [("entryId", quoted "77"); ("docType", quoted "entity");
                           ("entityRegistrationNumber", quoted "001")])) = Ok tt
    /\ (forall k,
          assoc k (Ledger.world
                     (snd (createEntry (RT := Reference.runtime) Sample.entities
                             (Sample.object [("entryId", quoted "77");
                                             ("docType", quoted "entity");
                                             ("entityRegistrationNumber", quoted "001")]))))
          = if "entry77" =? k
            then Some (JSON_stringify (JSRuntime := Reference.runtime) (JObj stored))
            else assoc k (Ledger.world Sample.entities))
    /\ assoc "docType" stored = Some (JStr "entry")
    /\ (forall k, k <> "docType" ->
                  assoc k stored
                  = assoc k [("entryId", JStr "77"); ("docType", JStr "entity");
                             ("entityRegistrationNumber", JStr "001")]).
Proof.
  exact (createEntry_stores_entry (RT := Reference.runtime) Sample.entities
           (Sample.object [("entryId", quoted "77"); ("docType", quoted "entity");
                           ("entityRegistrationNumber", quoted "001")])
           [("entryId", JStr "77"); ("docType", JStr "entity");
            ("entityRegistrationNumber", JStr "001")]
           (JStr "77") (JStr "001") "77" "001" Sample.alpha
           eq_refl eq_refl eq_refl eq_refl eq_refl eq_refl ltac:(discriminate)
           (or_introl eq_refl)).
Defined.

(** X4.  [createEntry] refuses an entry id whose key already holds a
    non-empty value: with the entity in place it fails with the
    entry-already-exists error and leaves the store as it was. *)
Theorem createEntry_refuses_existing {RT : JSRuntime} (l : Ledger.t) (args : string)
  (fields : list (string * jsval)) (entryId entityRegistrationNumber : jsval)
  (id number entity entry : string) :
  JSON_parse args = Some (JObj fields) ->
  js_get (JObj fields) "entryId" = Ok entryId ->
  js_to_string entryId = Ok id ->
  js_get (JObj fields) "entityRegistrationNumber" = Ok entityRegistrationNumber ->
  js_to_string entityRegistrationNumber = Ok number ->
  assoc ("entity" ++ number) (Ledger.world l) = Some entity ->
  entity <> "" ->
  assoc ("entry" ++ id) (Ledger.world l) = Some entry ->
  entry <> "" ->
  createEntry l args
  = (Throw (Error ("##### createEntry - This Entry already exists: " ++ id)), l).
Proof.
  intros Hp Hid Hi Hreg Hn He Hne Hy Hyne.
  rewrite (createEntry_steps l _ _ _ _ _ _ _ Hp Hid Hi eq_refl Hreg Hn).
  rewrite !ledger_getState, He, Hy. cbn [truthy].
  destruct (String.eqb_spec entity ""); [contradiction|].
  destruct (String.eqb_spec entry ""); [contradiction|]. reflexivity.
Qed.

Lemma createEntry_refuses_existing_witness :
  createEntry (RT := Reference.runtime) Demo.mixed (Sample.entry_args "6322")
  = (Throw (Error "##### createEntry - This Entry already exists: 12341234"), Demo.mixed).
Proof.
  exact (createEntry_refuses_existing (RT := Reference.runtime) Demo.mixed
           (Sample.entry_args "6322")
           [("entryId", JStr "12341234"); ("entityRegistrationNumber", JStr "6322")]
           (JStr "12341234") (JStr "6322") "12341234" "6322" Sample.farm
           (Sample.object [("entryId", quoted "12341234");
                           ("entityRegistrationNumber", quoted "6322");
                           ("docType", quoted "entry")])
           eq_refl eq_refl eq_refl eq_refl eq_refl eq_refl ltac:(discriminate) eq_refl
           ltac:(discriminate)).
Defined.

Lemma entry_key_is_no_entity_key (a b : string) :
  ("entry" ++ a =? "entity" ++ b) = false.
Proof. reflexivity. Qed.

Lemma entity_key_is_no_entry_key (a b : string) :
  ("entity" ++ a =? "entry" ++ b) = false.
Proof. reflexivity. Qed.

(** X5.  The keys of entities and of entries never meet, whatever the
    registration number and the entry id: [createEntry] changes the value of
    no entity key and [createEntity] the value of no entry key, whether the
    call succeeds or fails. *)
Theorem creation_keeps_key_spaces_apart {RT : JSRuntime} (l : Ledger.t)
  (args suffix : string) :
  assoc ("entity" ++ suffix) (Ledger.world (snd (createEntry l args)))
  = assoc ("entity" ++ suffix) (Ledger.world l)
  /\ assoc ("entry" ++ suffix) (Ledger.world (snd (createEntity l args)))
     = assoc ("entry" ++ suffix) (Ledger.world l).
Proof.
  split.
  - destruct (createEntry_writes l args) as [-> | [_ [entryId [text [_ ->]]]]];
      [reflexivity|].
    rewrite ledger_putState_world, assoc_insert.
    now rewrite entry_key_is_no_entity_key.
  - destruct (createEntity_writes l args) as [-> | [_ [reg [text [_ ->]]]]];
      [reflexivity|].
    rewrite ledger_putState_world, assoc_insert.
    now rewrite entity_key_is_no_entry_key.
Qed.

(* ================================================================== *)
(** ** Invocations *)
(* ================================================================== *)

Section Invocations.
Context {RT : JSRuntime} {S : Type} {ST : Stub S}.
Variable prototype_call : string -> option (result payload).

Lemma method_none (fcn : string) :
  method (S := S) prototype_call fcn = None
  <-> ~ In fcn handlers /\ prototype_call fcn = None.
Proof.
  unfold method, handlers.
  repeat match goal with
         | |- context [if fcn =? ?name then _ else _] =>
             destruct (String.eqb_spec fcn name) as [->|?];
             [split; [discriminate|intros [H _]; exfalso; apply H; simpl; tauto]|]
         end.
  destruct (prototype_call fcn); split.
  - discriminate.
  - intros [_ H]. discriminate H.
  - intros _. split; [|reflexivity]. simpl. intuition congruence.
  - reflexivity.
Qed.

Lemma method_changes_ledger (fcn : string) m (stub : S) (params : list string) :
  method prototype_call fcn = Some m ->
  snd (m stub params) = stub
  \/ (fcn = "createEntity" \/ fcn = "createEntry")
     /\ fst (m stub params) = Ok PUndefined
     /\ exists key text,
          getState stub key = Some ""
          /\ snd (m stub params) = putState stub key text.
Proof.
  unfold method.
  repeat match goal with
         | |- context [if fcn =? ?name then _ else _] =>
             destruct (String.eqb_spec fcn name) as [->|?]
         end;
    try (intros H; inversion H; subst m; left; reflexivity).
  - intros H. inversion H; subst m. clear H.
    destruct (createEntity_writes stub (args_text params))
      as [Hs | [Hok [reg [text [Hg Hs]]]]];
      destruct (createEntity stub (args_text params)) as [r stub'];
      cbn [fst snd] in *; [now left|].
    right. subst r. cbn [bind]. repeat split; eauto.
  - intros H. inversion H; subst m. clear H.
    destruct (createEntry_writes stub (args_text params))
      as [Hs | [Hok [entryId [text [Hg Hs]]]]];
      destruct (createEntry stub (args_text params)) as [r stub'];
      cbn [fst snd] in *; [now left|].
    right. subst r. cbn [bind]. repeat split; eauto.
  - destruct (prototype_call fcn); intros H; inversion H; subst m.
    left. reflexivity.
Qed.

End Invocations.

(** X6.  [Invoke] throws in one case only: the function name is no handler
    of the class and no member the chaincode object inherits.  It then
    throws the no-such-function error and leaves the ledger alone.  Whatever
    a handler throws comes back as a response, never as an exception. *)
Theorem Invoke_throws_iff_unknown {RT : JSRuntime} {S : Type} {ST : Stub S}
  (prototype_call : string -> option (result payload))
  (stub : S) (fcn : string) (params : list string) (e : exn) :
  (fst (Invoke prototype_call stub fcn params) = Throw e
   <-> ~ In fcn handlers /\ prototype_call fcn = None /\ e = NoSuchFunction fcn)
  /\ (fst (Invoke prototype_call stub fcn params) = Throw e ->
      snd (Invoke prototype_call stub fcn params) = stub).
Proof.
  unfold Invoke.
  destruct (method prototype_call fcn) as [m|] eqn:Em.
  - assert (Hm : ~ (~ In fcn handlers /\ prototype_call fcn = None)).
    { intros H. apply (method_none (S := S)) in H. congruence. }
    destruct (m stub params) as [[p|err] stub']; cbn [fst snd];
      (split; [split; [discriminate|intros [H1 [H2 _]]; exfalso; auto]|discriminate]).
  - apply method_none in Em. cbn [fst snd]. split; [|reflexivity]. split.
    + intros H. inversion H. tauto.
    + intros [_ [_ ->]]. reflexivity.
Qed.

(** X7.  An invocation changes the ledger in one case only: the function
    is [createEntity] or [createEntry] and the call succeeds; the change is
    then a single [putState], at a key that held no value.  A failed
    invocation and every other function leave the ledger as it was. *)
Theorem Invoke_changes_ledger_only_by_creation {RT : JSRuntime} {S : Type} {ST : Stub S}
  (prototype_call : string -> option (result payload))
  (stub : S) (fcn : string) (params : list string) :
  snd (Invoke prototype_call stub fcn params) = stub
  \/ (fcn = "createEntity" \/ fcn = "createEntry")
     /\ fst (Invoke prototype_call stub fcn params) = Ok (shim_success PUndefined)
     /\ exists key text,
          getState stub key = Some ""
          /\ snd (Invoke prototype_call stub fcn params) = putState stub key text.
Proof.
  unfold Invoke.
  destruct (method prototype_call fcn) as [m|] eqn:Em; [|now left].
  destruct (method_changes_ledger prototype_call fcn m stub params Em)
    as [Hs | [Hf [Hok Hput]]];
    destruct (m stub params) as [[p|err] stub']; cbn [fst snd] in *; auto;
    try discriminate Hok.
  right. inversion Hok; subst. auto.
Qed.

Section OnLedgerInvocations.
Context {RT : JSRuntime}.
Variable prototype_call : string -> option (result payload).

Lemma Invoke_ledger_step (l : Ledger.t) fcn params :
  snd (Invoke prototype_call l fcn params) = l
  \/ exists key text,
       (assoc key (Ledger.world l) = None \/ assoc key (Ledger.world l) = Some "")
       /\ Ledger.world (snd (Invoke prototype_call l fcn params))
          = Ledger.insert key text (Ledger.world l).
Proof.
  destruct (Invoke_changes_ledger_only_by_creation prototype_call l fcn params)
    as [H | [_ [_ [key [text [Hg H]]]]]]; [now left|].
  right. exists key, text. rewrite H. split; [now apply vacant_slot|reflexivity].
Qed.

End OnLedgerInvocations.

(** X8.  Records are written once: a key that holds a non-empty value
    holds the same value after any sequence of invocations.  No function of
    the chaincode updates or deletes a record. *)
Theorem records_are_written_once {RT : JSRuntime}
  (prototype_call : string -> option (result payload))
  (calls : list (string * list string)) (l : Ledger.t) (key stored : string) :
  assoc key (Ledger.world l) = Some stored ->
  stored <> "" ->
  assoc key (Ledger.world (invocations prototype_call l calls)) = Some stored.
Proof.
  revert l. induction calls as [|[fcn params] calls IH]; intros l Hk Hne;
    [exact Hk|].
  cbn [invocations]. apply IH; [|exact Hne].
  destruct (Invoke_ledger_step prototype_call l fcn params)
    as [-> | [key' [text [Hfree ->]]]]; [exact Hk|].
  rewrite assoc_insert. destruct (String.eqb_spec key' key) as [->|_]; [|exact Hk].
  destruct Hfree as [Hf|Hf]; rewrite Hk in Hf; [discriminate|].
  inversion Hf. contradiction.
Qed.

Lemma records_are_written_once_witness :
  assoc "entity6322"
    (Ledger.world
       (invocations (RT := Reference.runtime) Demo.natives Demo.mixed
          [("createEntity", [Sample.object [("entityRegistrationNumber", quoted "6322");
                                            ("entityName", quoted "Another Farm")]]);
           ("createEntity", [Demo.zed_args]);
           ("toString", []);
           ("createEntry", [Sample.entry_args "6322"])]))
  = Some Sample.farm.
Proof.
  exact (records_are_written_once (RT := Reference.runtime) Demo.natives _ Demo.mixed
           "entity6322" Sample.farm eq_refl ltac:(discriminate)).
Defined.

(* ================================================================== *)
(** ** The band of a range scan *)
(* ================================================================== *)

Lemma ascii_compare_nat (a b : ascii) :
  Ascii.compare a b = Nat.compare (nat_of_ascii a) (nat_of_ascii b).
Proof.
  unfold Ascii.compare, nat_of_ascii. now rewrite N2Nat.inj_compare.
Qed.

Lemma ascii_compare_refl (a : ascii) : Ascii.compare a a = Eq.
Proof. unfold Ascii.compare. apply N.compare_refl. Qed.

Lemma compare_empty_l (s : string) : String.compare "" s <> Gt.
Proof. destruct s; discriminate. Qed.

Lemma compare_empty_r (s : string) : String.compare s "" <> Lt.
Proof. destruct s; discriminate. Qed.

Lemma band_of_empty_prefix (k : string) :
  String.leb "0" k && String.ltb k "z" = true
  <-> exists c rest, k = String c rest /\ in_band c.
Proof.
  unfold String.leb, String.ltb, in_band. destruct k as [|c rest].
  - simpl. split; [discriminate|]. intros [c [rest [H _]]]. discriminate H.
  - cbn [String.compare]. rewrite !ascii_compare_nat.
    change (nat_of_ascii "0") with 48. change (nat_of_ascii "z") with 122.
    assert (A : match match Nat.compare 48 (nat_of_ascii c) with
                      | Eq => String.compare "" rest
                      | ne => ne
                      end with
                | Gt => false
                | _ => true
                end = true <-> 48 <= nat_of_ascii c).
    { pose proof (compare_empty_l rest) as Hl.
      destruct (Nat.compare_spec 48 (nat_of_ascii c)) as [E|E|E]; split; intros H;
        try lia; try reflexivity; try discriminate H.
      destruct (String.compare "" rest); congruence. }
    assert (B : match match Nat.compare (nat_of_ascii c) 122 with
                      | Eq => String.compare rest ""
                      | ne => ne
                      end with
                | Lt => true
                | _ => false
                end = true <-> nat_of_ascii c < 122).
    { pose proof (compare_empty_r rest) as Hr.
      destruct (Nat.compare_spec (nat_of_ascii c) 122) as [E|E|E]; split; intros H;
        try lia; try reflexivity; try discriminate H.
      destruct (String.compare rest ""); congruence. }
    rewrite andb_true_iff, A, B. split.
    + intros H. exists c, rest. split; [reflexivity|exact H].
    + intros [c' [rest' [H Hc]]]. inversion H; subst. exact Hc.
Qed.

(** The keys between [docType + "0"] and [docType + "z"]: those that
    continue [docType] with a character of the band. *)
Lemma band_of_prefix (d k : string) :
  String.leb (d ++ "0") k && String.ltb k (d ++ "z") = true
  <-> exists c rest, k = d ++ String c rest /\ in_band c.
Proof.
  revert k. induction d as [|a d IH]; intros k; [apply band_of_empty_prefix|].
  destruct k as [|b k].
  - split; [discriminate|]. intros [c [rest [H _]]]. discriminate H.
  - unfold String.leb, String.ltb. cbn [append String.compare].
    rewrite (Ascii.compare_antisym b a).
    destruct (Ascii.compare a b) eqn:E; cbn [CompOpp].
    + apply Ascii.compare_eq_iff in E. subst b.
      specialize (IH k). unfold String.leb, String.ltb in IH. rewrite IH.
      split; intros [c [rest [H Hc]]]; exists c, rest; split; auto.
      * now rewrite H.
      * now inversion H.
    + split; [discriminate|]. intros [c [rest [H _]]]. inversion H; subst.
      rewrite ascii_compare_refl in E. discriminate.
    + split; [discriminate|]. intros [c [rest [H _]]]. inversion H; subst.
      rewrite ascii_compare_refl in E. discriminate.
Qed.

Lemma append_inj (p a b : string) : p ++ a = p ++ b -> a = b.
Proof.
  induction p as [|c p IH]; simpl; intros H; [exact H|].
  inversion H. now apply IH.
Qed.

Lemma docType_only_payload {RT : JSRuntime} (l : Ledger.t) queryString
  jsonQueryString docType text :
  JSON_parse queryString = Some jsonQueryString ->
  js_get jsonQueryString "selector" = Ok (JObj [("docType", docType)]) ->
  truthy docType = true ->
  js_to_string docType = Ok text ->
  fst (queryByString l queryString)
  = Ok (map entry_of
          (filter nonempty
             (Ledger.range (text ++ "0") (text ++ "z") (Ledger.world l)))).
Proof.
  intros Hp Hs Ht Hc.
  destruct (queryByString_ledger l _ _ _ docType _ Hp Hs eq_refl Ht Hc) as [Hfst _].
  rewrite (collect_returns _ _ _ Hs (or_introl eq_refl)) in Hfst.
  rewrite selected_single_field in Hfst by reflexivity. exact Hfst.
Qed.

Lemma In_docType_only_payload {RT : JSRuntime} (docType : string)
  (w : list (string * string)) (e : QueryResult.t) :
  In e (map entry_of (filter nonempty (Ledger.range (docType ++ "0") (docType ++ "z") w)))
  <-> exists c rest v,
        in_band c
        /\ In (docType ++ String c rest, v) w
        /\ v <> ""
        /\ e = {| QueryResult.Key := docType ++ String c rest;
                  QueryResult.Record_ := decode v |}.
Proof.
  rewrite in_map_iff. split.
  - intros [kv [<- Hin]]. apply filter_In in Hin. destruct Hin as [Hin Hne].
    apply In_range in Hin. destruct Hin as [Hin [H1 H2]].
    destruct (proj1 (band_of_prefix docType (KV.key kv))) as [c [rest [Hk Hc]]].
    { now rewrite H1, H2. }
    exists c, rest, (KV.value kv). rewrite <- Hk.
    split; [exact Hc|]. split; [exact Hin|]. split; [|reflexivity].
    now apply nonempty_string.
  - intros [c [rest [v [Hc [Hin [Hne ->]]]]]].
    exists {| KV.key := docType ++ String c rest; KV.value := v |}.
    split; [reflexivity|]. apply filter_In. split.
    + apply In_range. cbn [KV.key KV.value]. split; [exact Hin|].
      apply andb_true_iff. apply band_of_prefix. eauto.
    + now apply nonempty_string.
Qed.



(** X11.  [queryAllEntities] never lists an entry, and it lists a stored
    entity exactly when the text of its registration number begins with a
    character from ["0"] up to, and without, ["z"]: an entity registered under
    the empty text, or under a number that begins with another character
    (such as [z]), is stored and found by [queryEntity] but is missing from
    the list. *)
Theorem queryAllEntities_lists_the_band {RT : JSRuntime} (l : Ledger.t) (args : string) :
  JSON_parse all_entities_query
  = Some (JObj [("selector", JObj [("docType", JStr "entity")])]) ->
  exists payload,
    fst (queryAllEntities l args) = Ok payload
    /\ (forall e entryId, In e payload -> QueryResult.Key e <> "entry" ++ entryId)
    /\ (forall number stored,
          assoc ("entity" ++ number) (Ledger.world l) = Some stored ->
          stored <> "" ->
          ((exists e, In e payload /\ QueryResult.Key e = "entity" ++ number)
           <-> exists c rest, number = String c rest /\ in_band c)).
Proof.
  intros Hp.
  pose proof (docType_only_payload l all_entities_query _ (JStr "entity") "entity" Hp
                eq_refl eq_refl eq_refl) as Hfst.
  eexists. split; [exact Hfst|]. split.
  - intros e entryId He Hk. apply In_docType_only_payload in He.
    destruct He as [c [rest [v [_ [_ [_ ->]]]]]]. discriminate Hk.
  - intros number stored Hs Hne. split.
    + intros [e [He Hk]]. apply In_docType_only_payload in He.
      destruct He as [c [rest [v [Hc [_ [_ ->]]]]]]. cbn [QueryResult.Key] in Hk.
      apply append_inj in Hk. eauto.
    + intros [c [rest [-> Hc]]]. eexists. split.
      * apply In_docType_only_payload. exists c, rest, stored.
        split; [exact Hc|]. split; [now apply assoc_In|].
        split; [exact Hne|reflexivity].
      * reflexivity.
Qed.

Lemma queryAllEntities_lists_the_band_witness :
  exists payload,
    fst (queryAllEntities (RT := Reference.runtime) Demo.mixed "") = Ok payload
    /\ (forall e entryId, In e payload -> QueryResult.Key e <> "entry" ++ entryId)
    /\ (forall number stored,
          assoc ("entity" ++ number) (Ledger.world Demo.mixed) = Some stored ->
          stored <> "" ->
          ((exists e, In e payload /\ QueryResult.Key e = "entity" ++ number)
           <-> exists c rest, number = String c rest /\ in_band c)).
Proof.
  exact (queryAllEntities_lists_the_band (RT := Reference.runtime) Demo.mixed ""
           eq_refl).
Defined.

(* ================================================================== *)
(** ** Failures and keys *)
(* ================================================================== *)






(** X14.  [createEntity] does not ask for a registration number: arguments
    without [entityRegistrationNumber] are stored under the key
    [entityundefined], once; the next such call fails with the
    already-exists error. *)
Theorem createEntity_without_number {RT : JSRuntime} (l : Ledger.t) (args : string)
  (fields : list (string * jsval)) :
  JSON_parse args = Some (JObj fields) ->
  assoc "entityRegistrationNumber" fields = None ->
  (assoc "entityundefined" (Ledger.world l) = None \/
   assoc "entityundefined" (Ledger.world l) = Some "") ->
  JSON_stringify (JObj (set_field "docType" (JStr "entity") fields)) <> "" ->
  createEntity l args
  = (Ok tt,
     putState l "entityundefined"
       (JSON_stringify (JObj (set_field "docType" (JStr "entity") fields))))
  /\ forall args' fields',
       JSON_parse args' = Some (JObj fields') ->
       assoc "entityRegistrationNumber" fields' = None ->
       fst (createEntity (snd (createEntity l args)) args')
       = Throw (EntityAlreadyExists JUndefined).
Proof.
  intros Hp Hnone Hfree Htext.
  assert (Hreg : js_get (JObj fields) "entityRegistrationNumber" = Ok JUndefined)
    by (cbn [js_get]; now rewrite Hnone).
  assert (Hc : createEntity l args
               = (Ok tt,
                  putState l "entityundefined"
                    (JSON_stringify (JObj (set_field "docType" (JStr "entity") fields))))).
  { rewrite (createEntity_object l _ _ _ "undefined" Hp Hreg eq_refl).
    cbn [append].
    rewrite (proj2 (vacant_slot l "entityundefined") Hfree). reflexivity. }
  split; [exact Hc|]. intros args' fields' Hp' Hnone'. rewrite Hc. cbn [snd].
  assert (Hreg' : js_get (JObj fields') "entityRegistrationNumber" = Ok JUndefined)
    by (cbn [js_get]; now rewrite Hnone').
  rewrite (createEntity_object _ _ _ _ "undefined" Hp' Hreg' eq_refl). cbn [append].
  rewrite ledger_getState, ledger_putState_world, assoc_insert, String.eqb_refl.
  cbn [truthy].
  destruct (String.eqb_spec
              (JSON_stringify (JObj (set_field "docType" (JStr "entity") fields))) "");
    [contradiction|reflexivity].
Qed.

Lemma createEntity_without_number_witness :
  createEntity (RT := Reference.runtime) Sample.nothing
    (Sample.object [("entityName", quoted "Nameless")])
  = (Ok tt,
     putState Sample.nothing "entityundefined"
       (Sample.object [("entityName", quoted "Nameless"); ("docType", quoted "entity")]))
  /\ forall args' fields',
       JSON_parse (JSRuntime := Reference.runtime) args' = Some (JObj fields') ->
       assoc "entityRegistrationNumber" fields' = None ->
       fst (createEntity (RT := Reference.runtime)
              (snd (createEntity (RT := Reference.runtime) Sample.nothing
                      (Sample.object [("entityName", quoted "Nameless")])))
              args')
       = Throw (EntityAlreadyExists JUndefined).
Proof.
  exact (createEntity_without_number (RT := Reference.runtime) Sample.nothing
           (Sample.object [("entityName", quoted "Nameless")])
           [("entityName", JStr "Nameless")]
           eq_refl eq_refl (or_introl eq_refl) ltac:(discriminate)).
Defined.

Section InvokeHandlers.
Context {RT : JSRuntime} {S : Type} {ST : Stub S}.
Variable prototype_call : string -> option (result payload).

Lemma Invoke_createEntity (stub : S) (params : list string) :
  Invoke prototype_call stub "createEntity" params
  = match createEntity stub (args_text params) with
    | (Ok _, stub') => (Ok (shim_success PUndefined), stub')
    | (Throw e, stub') => (Ok (shim_error e), stub')
    end.
Proof.
  unfold Invoke, method. cbn [String.eqb Ascii.eqb Bool.eqb].
  destruct (createEntity stub (args_text params)) as [[u|e] stub'];
    reflexivity.
Qed.

Lemma Invoke_queryEntity (stub : S) (params : list string) :
  Invoke prototype_call stub "queryEntity" params
  = match queryEntity stub (args_text params) with
    | Ok bytes => (Ok (shim_success (PBytes bytes)), stub)
    | Throw e => (Ok (shim_error e), stub)
    end.
Proof.
  unfold Invoke, method. cbn [String.eqb Ascii.eqb Bool.eqb].
  destruct (queryEntity stub (args_text params)); reflexivity.
Qed.

End InvokeHandlers.

(** X15.  Through [Invoke], with the arguments as the one parameter and a
    registration number that converts to text: the creation of an entity
    under a free registration number answers success, the query of that
    entity then answers success with exactly the stored text and leaves the
    ledger alone, a query of an entity that was never created answers an
    error response with the not-found error, and the creation repeated
    answers an error response with the already-exists error. *)
Theorem invoke_create_then_query {RT : JSRuntime}
  (prototype_call : string -> option (result payload)) (l : Ledger.t)
  (args : string) (fields : list (string * jsval)) (entityRegistrationNumber : jsval)
  (number : string) :
  JSON_parse args = Some (JObj fields) ->
  js_get (JObj fields) "entityRegistrationNumber" = Ok entityRegistrationNumber ->
  js_to_string entityRegistrationNumber = Ok number ->
  (assoc ("entity" ++ number) (Ledger.world l) = None \/
   assoc ("entity" ++ number) (Ledger.world l) = Some "") ->
  JSON_stringify (JObj (set_field "docType" (JStr "entity") fields)) <> "" ->
  Invoke prototype_call l "queryEntity" [args]
  = (Ok (shim_error (KeyDoesNotExist ("entity" ++ number))), l)
  /\ fst (Invoke prototype_call l "createEntity" [args]) = Ok (shim_success PUndefined)
  /\ Invoke prototype_call (snd (Invoke prototype_call l "createEntity" [args]))
       "queryEntity" [args]
     = (Ok (shim_success
              (PBytes (JSON_stringify (JObj (set_field "docType" (JStr "entity") fields))))),
        snd (Invoke prototype_call l "createEntity" [args]))
  /\ Invoke prototype_call (snd (Invoke prototype_call l "createEntity" [args]))
       "createEntity" [args]
     = (Ok (shim_error
              (Error ("##### createEntity - This Entity already exists: " ++ number))),
        snd (Invoke prototype_call l "createEntity" [args])).
Proof.
  intros Hp Hreg Hn Hfree Htext.
  set (key := "entity" ++ number) in *.
  set (text := JSON_stringify (JObj (set_field "docType" (JStr "entity") fields))) in *.
  assert (Ha : args_text [args] = args) by reflexivity.
  assert (Hq : forall l' : Ledger.t,
             queryEntity l' args
             = match assoc key (Ledger.world l') with
               | Some v => if v =? "" then Throw (KeyDoesNotExist key) else Ok v
               | None => Throw (KeyDoesNotExist key)
               end).
  { intros l'. unfold queryEntity, parse, string_plus. rewrite Hp. cbn [bind].
    rewrite Hreg. cbn [bind]. rewrite Hn. cbn [bind].
    fold key. rewrite queryByKey_spec, ledger_getState.
    destruct (assoc key (Ledger.world l')); reflexivity. }
  assert (Hc : createEntity l args = (Ok tt, putState l key text)).
  { rewrite (createEntity_steps l _ _ _ _ _ Hp Hreg Hn eq_refl). fold key text.
    rewrite (proj2 (vacant_slot l key) Hfree). reflexivity. }
  assert (Hg : assoc key (Ledger.world (putState l key text)) = Some text).
  { rewrite ledger_putState_world, assoc_insert. now rewrite String.eqb_refl. }
  rewrite !Invoke_createEntity, !Invoke_queryEntity, !Ha, Hc. cbn [fst snd].
  rewrite !Hq, Hg.
  destruct (String.eqb_spec text ""); [contradiction|].
  split; [|split; [reflexivity|split; [reflexivity|]]].
  - destruct Hfree as [-> | ->]; reflexivity.
  - rewrite (createEntity_steps _ _ _ _ _ _ Hp Hreg Hn eq_refl). fold key text.
    rewrite ledger_getState, Hg. cbn [truthy].
    destruct (String.eqb_spec text ""); [contradiction|reflexivity].
Qed.

Lemma invoke_create_then_query_witness :
  Invoke (RT := Reference.runtime) Demo.natives Sample.nothing "queryEntity"
    [Sample.farm_args]
  = (Ok (shim_error (KeyDoesNotExist "entity6322")), Sample.nothing)
  /\ fst (Invoke (RT := Reference.runtime) Demo.natives Sample.nothing "createEntity"
            [Sample.farm_args]) = Ok (shim_success PUndefined)
  /\ Invoke (RT := Reference.runtime) Demo.natives
       (snd (Invoke (RT := Reference.runtime) Demo.natives Sample.nothing "createEntity"
               [Sample.farm_args]))
       "queryEntity" [Sample.farm_args]
     = (Ok (shim_success (PBytes Sample.farm)),
        snd (Invoke (RT := Reference.runtime) Demo.natives Sample.nothing "createEntity"
               [Sample.farm_args]))
  /\ Invoke (RT := Reference.runtime) Demo.natives
       (snd (Invoke (RT := Reference.runtime) Demo.natives Sample.nothing "createEntity"
               [Sample.farm_args]))
       "createEntity" [Sample.farm_args]
     = (Ok (shim_error (Error "##### createEntity - This Entity already exists: 6322")),
        snd (Invoke (RT := Reference.runtime) Demo.natives Sample.nothing "createEntity"
               [Sample.farm_args])).
Proof.
  exact (invoke_create_then_query (RT := Reference.runtime) Demo.natives Sample.nothing
           Sample.farm_args
           [("entityRegistrationNumber", JStr "6322"); ("entityName", JStr "ABC Farm")]
           (JStr "6322") "6322" eq_refl eq_refl eq_refl (or_introl eq_refl)
           ltac:(discriminate)).
Defined.

(* ================================================================== *)
(** ** The order of the selector fields *)
(* ================================================================== *)




Lemma filter_none {A : Type} (f : A -> bool) (l : list A) :
  (forall x, In x l -> f x = false) -> filter f l = [].
Proof.
  induction l as [|x l IH]; simpl; intros H; [reflexivity|].
  rewrite (H x) by now left. apply IH. intros y Hy. apply H. now right.
Qed.



Section FieldOrder.
Context {RT : JSRuntime}.


End FieldOrder.

Section FieldOrderScan.
Context {RT : JSRuntime}.




End FieldOrderScan.



(* ================================================================== *)
(** ** The iterator protocol and the order of the result *)
(* ================================================================== *)

(** X17.  The outcome of a range scan and of a history call does not
    depend on how the iterator tells its end: whether the last element comes
    with [done: true] or the end is told by a separate [{done: true}], the
    result is the same and the cursor is closed as often. *)
Theorem outcome_is_independent_of_done_protocol {RT : JSRuntime} (l : Ledger.t)
  (flag_last : bool) (text : string) :
  fst (queryByString
         {| Ledger.world := Ledger.world l; Ledger.log := Ledger.log l;
            Ledger.flag_last := flag_last |} text)
  = fst (queryByString l text)
  /\ option_map Iterator.closed
       (snd (queryByString
               {| Ledger.world := Ledger.world l; Ledger.log := Ledger.log l;
                  Ledger.flag_last := flag_last |} text))
     = option_map Iterator.closed (snd (queryByString l text))
  /\ fst (queryHistoryForKey
            {| Ledger.world := Ledger.world l; Ledger.log := Ledger.log l;
               Ledger.flag_last := flag_last |} text)
     = fst (queryHistoryForKey l text)
  /\ option_map Iterator.closed
       (snd (queryHistoryForKey
               {| Ledger.world := Ledger.world l; Ledger.log := Ledger.log l;
                  Ledger.flag_last := flag_last |} text))
     = option_map Iterator.closed (snd (queryHistoryForKey l text)).
Proof.
  assert (Hq : forall l0 : Ledger.t,
             fst (queryByString l0 text)
             = match parse text with
               | Throw e => Throw e
               | Ok json =>
                   match range_of text json with
                   | Throw e => Throw e
                   | Ok (startKey, endKey) =>
                       collect json (Ledger.range startKey endKey (Ledger.world l0)) []
                   end
               end
             /\ option_map Iterator.closed (snd (queryByString l0 text))
                = match parse text with
                  | Throw e => None
                  | Ok json =>
                      match range_of text json with
                      | Throw e => None
                      | Ok (startKey, endKey) =>
                          match collect json
                                  (Ledger.range startKey endKey (Ledger.world l0)) [] with
                          | Ok _ => Some 1
                          | Throw _ => Some 0
                          end
                      end
                  end).
  { intros l0. unfold queryByString.
    destruct (parse text) as [json|e]; [|split; reflexivity].
    destruct (range_of text json) as [[startKey endKey]|e]; [|split; reflexivity].
    cbn [getStateByRange Ledger.stub Iterator.pending Iterator.closed].
    pose proof (scan_deliver json (Ledger.flag_last l0)
                  (Ledger.range startKey endKey (Ledger.world l0)) 0 []) as H1.
    pose proof (scan_closed json
                  (deliver (Ledger.flag_last l0)
                     (Ledger.range startKey endKey (Ledger.world l0))) 0 []) as H2.
    destruct (scan json _ 0 []) as [r it]. cbn [fst snd option_map] in *.
    rewrite H2, <- H1. split; [reflexivity|]. destruct r; reflexivity. }
  assert (Hh : forall l0 : Ledger.t,
             fst (queryHistoryForKey l0 text)
             = match history_key text with
               | Throw e => Throw e
               | Ok historyKey =>
                   Ok (map history_of
                         (filter recorded
                            match historyKey with
                            | JStr key => Ledger.changes key (Ledger.log l0)
                            | _ => []
                            end))
               end
             /\ option_map Iterator.closed (snd (queryHistoryForKey l0 text))
                = match history_key text with
                  | Throw e => None
                  | Ok _ => Some 1
                  end).
  { intros l0. unfold queryHistoryForKey.
    destruct (history_key text) as [historyKey|e]; [|split; reflexivity].
    cbn [getHistoryForKey Ledger.stub Iterator.pending Iterator.closed].
    match goal with
    | |- context [replay (deliver ?f ?cs) 0 []] =>
        pose proof (replay_deliver f cs 0 []) as H1;
        pose proof (replay_closed (deliver f cs) 0 []) as H2;
        destruct (replay (deliver f cs) 0 []) as [r it]
    end.
    cbn [fst snd option_map] in *. rewrite H2, H1. split; reflexivity. }
  destruct (Hq l) as [-> ->]. destruct (Hh l) as [-> ->].
  destruct (Hq {| Ledger.world := Ledger.world l; Ledger.log := Ledger.log l;
                  Ledger.flag_last := flag_last |}) as [-> ->].
  destruct (Hh {| Ledger.world := Ledger.world l; Ledger.log := Ledger.log l;
                  Ledger.flag_last := flag_last |}) as [-> ->].
  repeat split; reflexivity.
Qed.

Section ResultOrder.
Context {RT : JSRuntime}.

Lemma repeat_app_sorted (e : QueryResult.t) (n : nat) (rest : list QueryResult.t) :
  StronglySorted key_le rest -> Forall (key_le e) rest ->
  StronglySorted key_le (repeat e n ++ rest).
Proof.
  intros Hs Hall. induction n as [|n IH]; simpl; [exact Hs|].
  constructor; [exact IH|]. apply Forall_app. split; [|exact Hall].
  apply Forall_forall. intros x Hx. apply repeat_spec in Hx. subst x. now left.
Qed.

Lemma selected_sorted jsonRecord (kvs : list KV.t) :
  StronglySorted (fun a b => String.ltb (KV.key a) (KV.key b) = true) kvs ->
  StronglySorted key_le (selected jsonRecord kvs).
Proof.
  intros Hs. unfold selected.
  apply (StronglySorted_filter _ nonempty) in Hs.
  induction Hs as [|kv l Hs IH Hall]; simpl; [constructor|].
  apply repeat_app_sorted; [exact IH|].
  apply Forall_forall. intros x Hx. apply in_flat_map in Hx.
  destruct Hx as [kv' [Hin Hx]]. apply repeat_spec in Hx. subst x.
  rewrite Forall_forall in Hall. right. exact (Hall kv' Hin).
Qed.

End ResultOrder.

(** X18.  Whatever the selector, the result of [queryByString] is in the
    key order of the store: the keys of the returned entries never
    decrease, and the copies of one record stand next to each other. *)
Theorem scan_result_is_in_key_order {RT : JSRuntime} (l : Ledger.t)
  (queryString : string) (jsonQueryString : jsval) (fields : list (string * jsval))
  (docType : jsval) (payload : list QueryResult.t) :
  JSON_parse queryString = Some jsonQueryString ->
  js_get jsonQueryString "selector" = Ok (JObj fields) ->
  assoc "docType" fields = Some docType ->
  truthy docType = true ->
  Ledger.ordered (Ledger.world l) ->
  fst (queryByString l queryString) = Ok payload ->
  StronglySorted
    (fun a b => QueryResult.Key a = QueryResult.Key b
                \/ String.ltb (QueryResult.Key a) (QueryResult.Key b) = true)
    payload.
Proof.
  intros Hp Hs Hd Ht Hord Hok.
  destruct (queryByString_returned l _ _ _ _ _ Hp Hs Hd Ht Hok) as [text Hc].
  destruct (queryByString_ledger l _ _ _ _ _ Hp Hs Hd Ht Hc) as [Hfst _].
  rewrite Hfst in Hok. apply (collect_spec _ _ _ Hs) in Hok. simpl in Hok.
  subst payload. apply selected_sorted. unfold Ledger.range.
  apply StronglySorted_map, StronglySorted_filter. exact Hord.
Qed.

Lemma scan_result_is_in_key_order_witness :
  StronglySorted
    (fun a b => QueryResult.Key a = QueryResult.Key b
                \/ String.ltb (QueryResult.Key a) (QueryResult.Key b) = true)
    [ entry_of (RT := Reference.runtime)
        {| KV.key := "entity001"; KV.value := Sample.alpha |};
      entry_of (RT := Reference.runtime)
        {| KV.key := "entity001"; KV.value := Sample.alpha |} ].
Proof.
  apply (scan_result_is_in_key_order (RT := Reference.runtime) Sample.entities
           Sample.alpha_by_two
           (JObj [("selector", JObj [("docType", JStr "entity");
                                     ("entityName", JStr "Alpha");
                                     ("entityRegistrationNumber", JStr "001")])])
           [("docType", JStr "entity"); ("entityName", JStr "Alpha");
            ("entityRegistrationNumber", JStr "001")]
           (JStr "entity") _ eq_refl eq_refl eq_refl eq_refl).
  - repeat constructor.
  - reflexivity.
Defined.

(** X19.  An entity created under a free registration number whose text
    begins with a character from ["0"] up to, and without, ["z"] is listed by
    the next [queryAllEntities], under its key and with the record that was
    stored, [docType] included (for a runtime whose parser reads back what
    its printer wrote). *)
Theorem created_entity_is_listed {RT : JSRuntime} (l : Ledger.t) (args args' : string)
  (fields : list (string * jsval)) (entityRegistrationNumber : jsval)
  (c : ascii) (rest : string) :
  JSON_parse all_entities_query
  = Some (JObj [("selector", JObj [("docType", JStr "entity")])]) ->
  JSON_parse args = Some (JObj fields) ->
  js_get (JObj fields) "entityRegistrationNumber" = Ok entityRegistrationNumber ->
  js_to_string entityRegistrationNumber = Ok (String c rest) ->
  in_band c ->
  (assoc ("entity" ++ String c rest) (Ledger.world l) = None \/
   assoc ("entity" ++ String c rest) (Ledger.world l) = Some "") ->
  JSON_stringify (JObj (set_field "docType" (JStr "entity") fields)) <> "" ->
  JSON_parse (JSON_stringify (JObj (set_field "docType" (JStr "entity") fields)))
  = Some (JObj (set_field "docType" (JStr "entity") fields)) ->
  exists payload,
    fst (queryAllEntities (snd (createEntity l args)) args') = Ok payload
    /\ In {| QueryResult.Key := "entity" ++ String c rest;
             QueryResult.Record_ := JObj (set_field "docType" (JStr "entity") fields) |}
          payload.
Proof.
  intros Hq Hp Hreg Hnum Hc Hfree Htext Hback.
  rewrite (createEntity_object l _ _ _ _ Hp Hreg Hnum).
  rewrite (proj2 (vacant_slot l _) Hfree). cbn [truthy String.eqb negb snd].
  pose proof (docType_only_payload
                (putState l ("entity" ++ String c rest)
                   (JSON_stringify (JObj (set_field "docType" (JStr "entity") fields))))
                all_entities_query _ (JStr "entity") "entity" Hq eq_refl eq_refl eq_refl)
    as Hfst.
  eexists. split; [exact Hfst|].
  apply In_docType_only_payload.
  exists c, rest, (JSON_stringify (JObj (set_field "docType" (JStr "entity") fields))).
  split; [exact Hc|]. split; [|split; [exact Htext|]].
  - apply assoc_In. rewrite ledger_putState_world, assoc_insert.
    now rewrite String.eqb_refl.
  - unfold decode. now rewrite Hback.
Qed.

Lemma created_entity_is_listed_witness :
  exists payload,
    fst (queryAllEntities (RT := Reference.runtime)
           (snd (createEntity (RT := Reference.runtime) Sample.nothing Sample.farm_args))
           "") = Ok payload
    /\ In {| QueryResult.Key := "entity6322";
             QueryResult.Record_ :=
               JObj [("entityRegistrationNumber", JStr "6322");
                     ("entityName", JStr "ABC Farm"); ("docType", JStr "entity")] |}
          payload.
Proof.
  apply (created_entity_is_listed (RT := Reference.runtime) Sample.nothing
           Sample.farm_args ""
           [("entityRegistrationNumber", JStr "6322"); ("entityName", JStr "ABC Farm")]
           (JStr "6322") "6"%char "322" eq_refl eq_refl eq_refl eq_refl).
  - split; [apply Nat.leb_le | apply Nat.ltb_lt]; reflexivity.
  - left. reflexivity.
  - discriminate.
  - reflexivity.
Defined.

(* ================================================================== *)
(** ** Ids that have no text *)
(* ================================================================== *)

(** X20.  An id that does not convert to text (an object with a property
    called [toString], or an array that holds one) makes the handler throw
    a [TypeError] where it builds the key, before it reads or writes the
    ledger: [createEntity] and [queryEntity] on such a registration number,
    [createEntry] on such an entry id or registration number, and
    [queryHistoryForKey] on such a key or [docType], which opens no
    cursor. *)
Theorem ids_without_text_throw {RT : JSRuntime} {S : Type} {ST : Stub S}
  (stub : S) (args : string) (json : jsval) :
  JSON_parse args = Some json ->
  (forall entityRegistrationNumber,
     js_get json "entityRegistrationNumber" = Ok entityRegistrationNumber ->
     converts entityRegistrationNumber = false ->
     createEntity stub args = (Throw TypeError, stub)
     /\ queryEntity stub args = Throw TypeError
     /\ fst (createEntry stub args) = Throw TypeError
     /\ snd (createEntry stub args) = stub)
  /\ (forall entryId,
        js_get json "entryId" = Ok entryId ->
        converts entryId = false ->
        createEntry stub args = (Throw TypeError, stub))
  /\ (forall key docType,
        js_get json "key" = Ok key ->
        js_get json "docType" = Ok docType ->
        converts key = false \/ converts docType = false ->
        queryHistoryForKey stub args = (Throw TypeError, None)).
Proof.
  intros Hp. split; [|split].
  - intros reg Hreg Hc. apply converts_false in Hc.
    assert (Hentity : createEntity stub args = (Throw TypeError, stub)).
    { unfold createEntity, parse, string_plus. rewrite Hp. cbn [bind].
      rewrite Hreg. cbn [bind]. now rewrite Hc. }
    assert (Hentry : fst (createEntry stub args) = Throw TypeError).
    { unfold createEntry, parse, string_plus. rewrite Hp. cbn [bind].
      destruct (js_get json "entryId") as [entryId|e] eqn:Eid; cbn [bind];
        [|now rewrite (js_get_throws _ _ _ Eid)].
      destruct (js_to_string entryId) as [id|e] eqn:Ei; cbn [bind];
        [|now rewrite (js_to_string_throws _ _ Ei)].
      destruct (js_set json "docType" (JStr "entry")) as [json'|e] eqn:Es; cbn [bind].
      - rewrite (js_get_after_set _ _ _ "entityRegistrationNumber" _ Es) by discriminate.
        rewrite Hreg. cbn [bind]. now rewrite Hc.
      - destruct json; cbn [js_set] in Es; try discriminate Es; now inversion Es. }
    split; [exact Hentity|]. split; [|split; [exact Hentry|]].
    + unfold queryEntity, parse, string_plus. rewrite Hp. cbn [bind].
      rewrite Hreg. cbn [bind]. now rewrite Hc.
    + now apply (createEntry_fails_clean stub args TypeError).
  - intros entryId Hid Hc. apply converts_false in Hc.
    unfold createEntry, parse, string_plus. rewrite Hp. cbn [bind].
    rewrite Hid. cbn [bind]. now rewrite Hc.
  - intros key docType Hk Hd Hc.
    assert (Hkey : history_key args = Throw TypeError).
    { rewrite (history_key_spec _ _ _ _ Hp Hk Hd).
      destruct (js_to_string key) as [name|e] eqn:Ek; cbn [bind];
        [|now rewrite (js_to_string_throws _ _ Ek)].
      destruct (js_plus docType key) as [sum|e] eqn:Eplus;
        [|now rewrite (js_plus_throws _ _ _ Eplus)].
      destruct (js_plus_converts _ _ _ Eplus) as [H1 H2].
      destruct Hc as [Hc|Hc]; congruence. }
    unfold queryHistoryForKey. now rewrite Hkey.
Qed.

Lemma ids_without_text_throw_witness :
  (createEntity (RT := Reference.runtime) Sample.entities Sample.stringless_entity
   = (Throw TypeError, Sample.entities)
   /\ queryEntity (RT := Reference.runtime) Sample.entities Sample.stringless_entity
      = Throw TypeError)
  /\ createEntry (RT := Reference.runtime) Sample.entities Sample.stringless_entry
     = (Throw TypeError, Sample.entities)
  /\ queryHistoryForKey (RT := Reference.runtime) Sample.entities Sample.stringless_key
     = (Throw TypeError, None).
Proof.
  split; [|split].
  - destruct (proj1 (ids_without_text_throw (RT := Reference.runtime) Sample.entities
                       Sample.stringless_entity
                       (JObj [("entityRegistrationNumber", JObj [("toString", JNum 1)])])
                       eq_refl)
                (JObj [("toString", JNum 1)]) eq_refl eq_refl) as [H1 [H2 _]].
    split; assumption.
  - destruct (proj1 (ids_without_text_throw (RT := Reference.runtime) Sample.entities
                       Sample.stringless_entry
                       (JObj [("entryId", JStr "12341234");
                              ("entityRegistrationNumber", JObj [("toString", JNum 1)])])
                       eq_refl)
                (JObj [("toString", JNum 1)]) eq_refl eq_refl) as [_ [_ [H3 H4]]].
    rewrite <- H4 at 2. rewrite <- H3. now destruct (createEntry _ _).
  - apply (proj2 (proj2 (ids_without_text_throw (RT := Reference.runtime) Sample.entities
                           Sample.stringless_key
                           (JObj [("key", JObj [("toString", JNum 1)]);
                                  ("docType", JStr "entity")])
                           eq_refl))
             (JObj [("toString", JNum 1)]) (JStr "entity") eq_refl eq_refl).
    left. reflexivity.
Defined.
